(** * wuvt/dmca: the track handler and its FLAC block-header codec

    A shallow embedding of the Go sources.  Two revisions of the program
    are embedded:
    - the streaming revision of [trackHandler], which checks the [fLaC]
      signature, copies the STREAMINFO block and walks the metadata blocks
      with [parseBlockHeader] and [BlockHeader.Marshal]: [Module Streaming];
    - the revision of [main.go], which downloads the object into a
      temporary file, runs [metaflac] on it and serves the file:
      [Module Tagging].
    [loadTrackInfo], the configuration and the error types are the same in
    both and are embedded once.

    Bytes on a stream are [Byte.byte]; Go's fixed-width integers are [Z]
    with the conversions written out; a reader is the list of the bytes it
    has not handed out yet. *)

From Stdlib Require Import ZArith List Bool String Ascii Lia.
From Stdlib Require Import Strings.Byte.
Import ListNotations.

Local Open Scope Z_scope.


(** * Part 1: the program *)

(** ** Bytes and integer conversions *)

Definition byte_to_Z (b : byte) : Z := Z.of_N (Byte.to_N b).

(** Go's [byte(x)] / [uint8(x)] on an integer: the low eight bits. *)
Definition to_uint8 (z : Z) : Z := z mod 256.

(** Go's [int64(x)] on a [uint64]: two's complement reinterpretation. *)
Definition to_int64 (z : Z) : Z := (z + 2 ^ 63) mod 2 ^ 64 - 2 ^ 63.

(** The byte holding the low eight bits of [z]. *)
Definition byte_of_Z (z : Z) : byte :=
  match Byte.of_N (Z.to_N (to_uint8 z)) with
  | Some b => b
  | None => x00
  end.

(** [[]byte(s)] for a string. *)
Definition bytes_of (s : string) : list byte := list_byte_of_string s.

(** [bytes.Equal]. *)
Fixpoint bytes_Equal (a b : list byte) : bool :=
  match a, b with
  | [], [] => true
  | x :: a', y :: b' => Byte.eqb x y && bytes_Equal a' b'
  | _, _ => false
  end.

(** ** Package [net/http] *)

Module http.

(** The server side of one exchange.  [header] is the map returned by
    [w.Header()]; [wrote] is the status line and the headers as they went
    out, once [WriteHeader] has run; [body] is what has been written to the
    client; [room] is the number of bytes the client will still take before
    a write fails ([None]: it takes everything). *)
Record ResponseWriter := {
  header : list (string * string);
  wrote : option (Z * list (string * string));
  body : list byte;
  room : option nat
}.

Definition fresh (room : option nat) : ResponseWriter :=
  {| header := []; wrote := None; body := []; room := room |}.

Definition Header_Set (key value : string) (w : ResponseWriter) : ResponseWriter :=
  {| header := (key, value) ::
               filter (fun kv => negb (String.eqb (fst kv) key)) (header w);
     wrote := wrote w; body := body w; room := room w |}.

Definition Header_Add (key value : string) (w : ResponseWriter) : ResponseWriter :=
  {| header := header w ++ [(key, value)];
     wrote := wrote w; body := body w; room := room w |}.

(** [w.WriteHeader(code)]: the first call fixes the status and the headers;
    a later call changes nothing. *)
Definition WriteHeader (code : Z) (w : ResponseWriter) : ResponseWriter :=
  match wrote w with
  | Some _ => w
  | None => {| header := header w; wrote := Some (code, header w);
               body := body w; room := room w |}
  end.

(** [w.Write(p)]: sends a 200 status first when none went out; the flag
    is [err != nil]. *)
Definition Write (p : list byte) (w : ResponseWriter) : ResponseWriter * bool :=
  let w := WriteHeader 200 w in
  match room w with
  | None =>
      ({| header := header w; wrote := wrote w;
          body := body w ++ p; room := None |}, false)
  | Some n =>
      if (List.length p <=? n)%nat
      then ({| header := header w; wrote := wrote w;
               body := body w ++ p; room := Some (n - List.length p)%nat |}, false)
      else ({| header := header w; wrote := wrote w;
               body := body w ++ firstn n p; room := Some 0%nat |}, true)
  end.

(** [http.Error(w, error, code)]: plain-text headers, the status, then
    [fmt.Fprintln(w, error)]. *)
Definition Error (w : ResponseWriter) (error : string) (code : Z) : ResponseWriter :=
  let w := Header_Set "Content-Type" "text/plain; charset=utf-8" w in
  let w := Header_Set "X-Content-Type-Options" "nosniff" w in
  let w := WriteHeader code w in
  fst (Write (bytes_of (error ++ String "010" EmptyString)) w).

Definition StatusNotFound : Z := 404.
Definition StatusMethodNotAllowed : Z := 405.
Definition StatusInternalServerError : Z := 500.

(** [http.NotFound(w, r)]. *)
Definition NotFound (w : ResponseWriter) : ResponseWriter :=
  Error w "404 page not found" StatusNotFound.

(** The part of [http.Request] that the handler and [ServeContent] read:
    [r.Method], [r.URL.Path] and [r.Header], one pair for each header line
    of the request, the key in its canonical form. *)
Record Request := {
  Method : string;
  Path : string;
  Header : list (string * string)
}.

(** [h.Get(key)]: the first value under [key], or the empty string. *)
Definition Header_Get (key : string) (h : list (string * string)) : string :=
  match find (fun kv => String.eqb (fst kv) key) h with
  | Some kv => snd kv
  | None => EmptyString
  end.

(** Whether the request carries one of the headers that [ServeContent]
    acts on: the four preconditions and [Range] ([If-Range] is read only
    next to a [Range]).  A header with an empty value counts as absent, as
    in [checkPreconditions]. *)
Definition conditional (r : Request) : bool :=
  existsb (fun key => negb (String.eqb (Header_Get key (Header r)) EmptyString))
    ["If-Match"; "If-Unmodified-Since"; "If-None-Match"; "If-Modified-Since";
     "Range"]%string.

(** What [ServeContent] settles on for a request:
    - [Whole]: status 200 and the whole content;
    - [NotModified]: status 304, no body;
    - [PreconditionFailed]: status 412, no body;
    - [NotSatisfiable reason]: [http.Error] with status 416 and the text of
      the range error;
    - [Partial start n]: status 206 and one range of the content, [n]
      bytes from [start] on;
    - [Multipart parts closing]: status 206 and several ranges of the
      content, each after the bytes that open its part ([head]), with the
      closing boundary at the end. *)
Inductive Served :=
| Whole
| NotModified
| PreconditionFailed
| NotSatisfiable (reason : string)
| Partial (start n : nat)
| Multipart (parts : list (list byte * nat * nat)) (closing : list byte).

Definition StatusOK : Z := 200.
Definition StatusPartialContent : Z := 206.
Definition StatusNotModified : Z := 304.
Definition StatusPreconditionFailed : Z := 412.
Definition StatusRequestedRangeNotSatisfiable : Z := 416.

(** [content[start : start+n]]. *)
Definition slice (start n : nat) (content : list byte) : list byte :=
  firstn n (skipn start content).

(** The end of [serveContent]: [w.WriteHeader(code)], then
    [io.CopyN(w, sendContent, sendSize)], whose error is dropped; nothing
    is written when there is nothing to send. *)
Definition send (code : Z) (p : list byte) (w : ResponseWriter) : ResponseWriter :=
  let w := WriteHeader code w in
  match p with
  | [] => w
  | _ => fst (Write p w)
  end.

(** [http.ServeContent(w, r, name, modtime, content)].  A request without
    [Range] and precondition headers gets status 200 and the whole
    content.  For any other request [check] stands for
    [checkPreconditions] and [parseRange]: from the headers of the request
    and the size of the content it gives what is to be served ([modtime]
    is the time of the call, so the answer is the caller's to give).
    [content] is a file that has just been opened: reading it and seeking
    in it succeed.  Of the response headers that [ServeContent] sets on
    its own ([Last-Modified], [Content-Type], [Accept-Ranges],
    [Content-Length], [Content-Range]) the model keeps none. *)
Definition ServeContent (w : ResponseWriter) (r : Request)
    (check : list (string * string) -> nat -> Served) (content : list byte)
  : ResponseWriter :=
  let served :=
    if conditional r then check (Header r) (List.length content) else Whole in
  match served with
  | Whole => send StatusOK content w
  | NotModified => WriteHeader StatusNotModified w
  | PreconditionFailed => WriteHeader StatusPreconditionFailed w
  | NotSatisfiable reason => Error w reason StatusRequestedRangeNotSatisfiable
  | Partial start n => send StatusPartialContent (slice start n content) w
  | Multipart parts closing =>
      send StatusPartialContent
        (List.concat (map (fun part : list byte * nat * nat =>
                        let '(head, start, n) := part in
                        head ++ slice start n content) parts)
           ++ closing) w
  end.

(** The client side: an [*http.Response] ... *)
Record Response := { StatusCode : Z; Body : list byte }.

(** ... and what [client.Do] / [client.Get] / [http.Get] return:
    - [TransportError]: [err != nil] and a nil response;
    - [RedirectError resp]: [err != nil] with a response whose body is
      already closed (the redirect policy gave up);
    - [Received resp]: [err == nil]. *)
Inductive Reply :=
| TransportError
| RedirectError (resp : Response)
| Received (resp : Response).

End http.

(** ** Package [io] *)

Module io.

(** An [io.Reader] over a finite source: the bytes not read yet.  A read
    past the end returns [io.EOF]. *)
Definition Reader := list byte.

(** [io.LimitedReader{R, N}]: reads from [R], at most [N] bytes. *)
Record LimitedReader := { R : Reader; N : Z }.

(** One-byte read through a [LimitedReader]; [None] is [io.EOF]. *)
Definition ReadByte (l : LimitedReader) : option (byte * LimitedReader) :=
  if N l <=? 0 then None
  else match R l with
       | [] => None
       | b :: r => Some (b, {| R := r; N := N l - 1 |})
       end.

(** [io.ReadFull(r, buf)] with [len(buf) = n]: the [n] bytes, or an error
    ([io.EOF] / [io.ErrUnexpectedEOF]) when the source is shorter, in
    which case whatever was there has been consumed. *)
Definition ReadFull (r : Reader) (n : nat) : option (list byte) * Reader :=
  if (n <=? List.length r)%nat then (Some (firstn n r), skipn n r)
  else (None, []).

(** [io.Copy(w, src)] into a response writer: everything that is left;
    the flag is [err != nil], which only a failed write causes.  Nothing
    is written when nothing is read. *)
Definition Copy (w : http.ResponseWriter) (src : Reader)
  : http.ResponseWriter * Reader * bool :=
  match src with
  | [] => (w, [], false)
  | _ => let (w', werr) := http.Write src w in (w', [], werr)
  end.

(** [io.CopyN(w, src, n)]: [Copy] from [io.LimitReader(src, n)], and
    [io.EOF] when fewer than [n] bytes came through. *)
Definition CopyN (w : http.ResponseWriter) (src : Reader) (n : Z)
  : http.ResponseWriter * Reader * bool :=
  let k := Z.to_nat n in
  let '(w', _, werr) := Copy w (firstn k src) in
  (w', skipn k src, werr || (Z.of_nat (List.length (firstn k src)) <? n)).

(** [io.Copy(tmpf, src)] into a file that can take [room] more bytes. *)
Definition CopyToFile (room : option nat) (src : Reader) : list byte * bool :=
  match room with
  | None => (src, false)
  | Some n => if (List.length src <=? n)%nat then (src, false)
              else (firstn n src, true)
  end.

End io.

(** ** Package [github.com/eaburns/bit] *)

Module bit.

(** Modelled from the spec: the bit reader is a third-party package that
    is not part of the sources.  Following section 4.1 ("unpacking,
    most-significant-bit-first") it hands out the bits of each byte from
    bit 7 down to bit 0, and pulls one byte from the underlying reader only
    when the current one is used up.  [r] is the underlying reader and
    [pending] the bits of the current byte that are still to come. *)
Record Reader := { r : io.LimitedReader; pending : list bool }.

(** Modelled from the spec: [bit.NewReader(r)], with no byte pulled yet. *)
Definition NewReader (l : io.LimitedReader) : Reader :=
  {| r := l; pending := [] |}.

(** Modelled from the spec: the bits of a byte, most significant first. *)
Definition bits_of_byte (b : byte) : list bool :=
  map (Z.testbit (byte_to_Z b)) [7; 6; 5; 4; 3; 2; 1; 0].

(** Modelled from the spec: the next bit, from the current byte or from a
    byte pulled for it; [None] at the end of the underlying reader. *)
Definition next_bit (br : Reader) : option (bool * Reader) :=
  match pending br with
  | x :: xs => Some (x, {| r := r br; pending := xs |})
  | [] =>
      match io.ReadByte (r br) with
      | None => None
      | Some (b, l) =>
          match bits_of_byte b with
          | x :: xs => Some (x, {| r := l; pending := xs |})
          | [] => None
          end
      end
  end.

(** Modelled from the spec: [Read(n)], the next [n] bits as an unsigned
    number, first bit most significant; [acc] is the value read so far. *)
Fixpoint Read (n : nat) (acc : Z) (br : Reader) : option (Z * Reader) :=
  match n with
  | O => Some (acc, br)
  | S n' =>
      match next_bit br with
      | None => None
      | Some (x, br') => Read n' (2 * acc + Z.b2z x) br'
      end
  end.

(** Modelled from the spec: [ReadFields(ns...)], one [Read] per width, in
    order; an error as soon as one of them fails. *)
Fixpoint ReadFields (ns : list nat) (br : Reader) : option (list Z * Reader) :=
  match ns with
  | [] => Some ([], br)
  | n :: ns' =>
      match Read n 0 br with
      | None => None
      | Some (v, br') =>
          match ReadFields ns' br' with
          | None => None
          | Some (vs, br'') => Some (v :: vs, br'')
          end
      end
  end.

End bit.

(** ** The block header codec *)

(** [type BlockHeader struct { LastBlock bool; Type uint8; Length int64 }].
    The field [Type] is spelt [Type_] here. *)
Record BlockHeader := {
  LastBlock : bool;
  Type_ : Z;
  Length : Z
}.

(** [func parseBlockHeader(r io.Reader) (block *BlockHeader, err error)].
    [None] is the error return; otherwise the header and the reader
    positioned after the bytes the bit reader pulled. *)
Definition parseBlockHeader (rd : io.Reader) : option (BlockHeader * io.Reader) :=
  let br := bit.NewReader {| io.R := rd; io.N := 32 |} in
  match bit.ReadFields [1; 7; 24]%nat br with
  | None => None
  | Some (fields, br') =>
      Some ({| LastBlock := nth 0 fields 0 =? 1;
               Type_ := to_uint8 (nth 1 fields 0);
               Length := to_int64 (nth 2 fields 0) |},
            io.R (bit.r br'))
  end.

(** [func (b *BlockHeader) Marshal() []byte]. *)
Definition Marshal (b : BlockHeader) : list byte :=
  let p0 := to_uint8 (Type_ b) in
  let p1 := to_uint8 (Z.shiftr (Length b) 16) in
  let p2 := to_uint8 (Z.shiftr (Length b) 8) in
  let p3 := to_uint8 (Length b) in
  let p0 := if LastBlock b then Z.lxor p0 128 else p0 in
  [byte_of_Z p0; byte_of_Z p1; byte_of_Z p2; byte_of_Z p3].

(** ** Configuration, catalog records and errors *)

(** [var config struct { ... }]. *)
Record Config := {
  impalaURL : string;
  impalaUsername : string;
  impalaPassword : string;
  mossURL : string
}.

Record TrackJSON := {
  Added_At : string;
  Added_By : string;
  Artist : string;
  Disc_Num : Z;
  File_Path : string;
  Has_FCC : string;
  Holding_ID : string;
  ID : string;
  Recording_MBID : string;
  Title : string;
  Track_MBID : string;
  Track_Num : Z
}.

(** The values of Go's [error] the handler tells apart: the two error
    types of the program, and any other error. *)
Inductive error :=
| TrackNotFoundError (id : string)
| TrackFetchError (id : string)
| OtherError.

(** What the handler does not compute itself: the configuration, the two
    upstream services seen through the HTTP client ([Get], by URL),
    [http.NewRequest] accepting a URL, the JSON decoding of a [TrackJSON]
    and [url.PathEscape]. *)
Record Env := {
  config : Config;
  NewRequest_ok : string -> bool;
  Get : string -> http.Reply;
  Decode : list byte -> option TrackJSON;
  PathEscape : string -> string
}.

Definition loginURL (env : Env) : string :=
  (impalaURL (config env) ++ "/api/v1/login")%string.

Definition trackURL (env : Env) (trackID : string) : string :=
  (impalaURL (config env) ++ "/api/v1/tracks/" ++ trackID)%string.

(** [func loadTrackInfo(trackID string) (data *TrackJSON, err error)],
    together with the URLs it requested, in order.  ([cookiejar.New]
    returns no error.) *)
Definition loadTrackInfo (env : Env) (trackID : string)
  : (TrackJSON + error) * list string :=
  let login := loginURL env in
  if negb (NewRequest_ok env login) then (inr OtherError, [])
  else
    match Get env login with
    | http.Received _ =>
        let url := trackURL env trackID in
        match Get env url with
        | http.Received resp =>
            if http.StatusCode resp =? 404
            then (inr (TrackNotFoundError trackID), [login; url])
            else if negb (http.StatusCode resp =? 200)
            then (inr (TrackFetchError trackID), [login; url])
            else
              match Decode env (http.Body resp) with
              | Some data => (inl data, [login; url])
              | None => (inr OtherError, [login; url])
              end
        | _ => (inr OtherError, [login; url])
        end
    | _ => (inr OtherError, [login])
    end.

(** ** The route *)

(** [[a-f0-9]]. *)
Definition hexdigit (c : ascii) : bool :=
  (Ascii.leb "a" c && Ascii.leb c "f") || (Ascii.leb "0" c && Ascii.leb c "9").

(** [[a-f0-9]{n}] at the head of [s]: what follows it. *)
Fixpoint hexrun (n : nat) (s : string) : option string :=
  match n with
  | O => Some s
  | S n' =>
      match s with
      | String c s' => if hexdigit c then hexrun n' s' else None
      | EmptyString => None
      end
  end.

(** A literal at the head of [s]: what follows it. *)
Fixpoint literal (p s : string) : option string :=
  match p with
  | EmptyString => Some s
  | String a p' =>
      match s with
      | String b s' => if Ascii.eqb a b then literal p' s' else None
      | EmptyString => None
      end
  end.

Definition between (lo hi : nat) (c : ascii) : bool :=
  ((lo <=? nat_of_ascii c) && (nat_of_ascii c <=? hi))%nat.

(** The width in bytes of the first character of [s], as
    [utf8.DecodeRuneInString] has it: a well-formed UTF-8 sequence of two
    to four bytes, or one byte (also when the byte starts no well-formed
    sequence). *)
Definition rune_width (s : string) : nat :=
  match s with
  | EmptyString => 0%nat
  | String a s1 =>
      let n := nat_of_ascii a in
      if (n <? 194)%nat then 1%nat
      else if (n <? 224)%nat then
        match s1 with
        | String b _ => if between 128 191 b then 2%nat else 1%nat
        | _ => 1%nat
        end
      else if (n <? 240)%nat then
        match s1 with
        | String b (String c _) =>
            if between (if (n =? 224)%nat then 160 else 128)
                       (if (n =? 237)%nat then 159 else 191) b
               && between 128 191 c
            then 3%nat else 1%nat
        | _ => 1%nat
        end
      else if (n <? 245)%nat then
        match s1 with
        | String b (String c (String d _)) =>
            if between (if (n =? 240)%nat then 144 else 128)
                       (if (n =? 244)%nat then 143 else 191) b
               && between 128 191 c && between 128 191 d
            then 4%nat else 1%nat
        | _ => 1%nat
        end
      else 1%nat
  end.

Fixpoint drop (n : nat) (s : string) : string :=
  match n, s with
  | S n', String _ s' => drop n' s'
  | _, _ => s
  end.

(** [.]: any character but a newline. *)
Definition anychar (s : string) : option string :=
  match s with
  | String c _ => if Ascii.eqb c "010" then None else Some (drop (rune_width s) s)
  | EmptyString => None
  end.

Definition andThen {A B : Type} (o : option A) (f : A -> option B) : option B :=
  match o with
  | Some a => f a
  | None => None
  end.

(** [trackRe.FindStringSubmatch(path)] for
    [^/track/(?P<uuid>[a-f0-9]{8}-[a-f0-9]{4}-[a-f0-9]{4}-[a-f0-9]{4}-[a-f0-9]{12}).flac$]:
    the whole match and the [uuid] group, or nil.  Every piece of the
    pattern has one way to match, so the pieces are tried in order. *)
Definition FindStringSubmatch (path : string) : list string :=
  let end_of_match :=
    andThen (literal "/track/" path) (fun s =>
    andThen (hexrun 8 s) (fun s =>
    andThen (literal "-" s) (fun s =>
    andThen (hexrun 4 s) (fun s =>
    andThen (literal "-" s) (fun s =>
    andThen (hexrun 4 s) (fun s =>
    andThen (literal "-" s) (fun s =>
    andThen (hexrun 4 s) (fun s =>
    andThen (literal "-" s) (fun s =>
    andThen (hexrun 12 s) (fun s =>
    andThen (anychar s) (fun s =>
    andThen (literal "flac" s) (fun s =>
    match s with
    | EmptyString => Some tt
    | _ => None
    end)))))))))))) in
  match end_of_match with
  | Some _ => [path; substring 7 36 path]
  | None => []
  end.

(** ** What a request leaves behind *)

(** One [log.Printf]: the format, as it is spelt in the source, and the
    values printed with it ([AnError] for a non-nil [err], [NoError] for a
    nil one). *)
Inductive LogArg :=
| AnError
| NoError
| ABool (b : bool)
| AnInt (z : Z).

Record LogLine := { format : string; args : list LogArg }.

(** The response writer, the log, the URLs requested upstream, and whether
    the handler panicked. *)
Record Conn := {
  w : http.ResponseWriter;
  log : list LogLine;
  calls : list string;
  panicked : bool
}.

Definition start (w0 : http.ResponseWriter) : Conn :=
  {| w := w0; log := []; calls := []; panicked := false |}.

Definition with_w (c : Conn) (w' : http.ResponseWriter) : Conn :=
  {| w := w'; log := log c; calls := calls c; panicked := panicked c |}.

Definition Printf (c : Conn) (fmt : string) (a : list LogArg) : Conn :=
  {| w := w c; log := log c ++ [{| format := fmt; args := a |}];
     calls := calls c; panicked := panicked c |}.

Definition called (c : Conn) (urls : list string) : Conn :=
  {| w := w c; log := log c; calls := calls c ++ urls; panicked := panicked c |}.

Definition panic (c : Conn) : Conn :=
  {| w := w c; log := log c; calls := calls c; panicked := true |}.

Definition magic : list byte := bytes_of "fLaC".

(** [fmt.Sprintf("%s/%s/music/%s", config.mossURL,
    url.PathEscape(data.Holding_ID), url.PathEscape(data.File_Path))]. *)
Definition mossTrackURL (env : Env) (data : TrackJSON) : string :=
  (mossURL (config env) ++ "/" ++ PathEscape env (Holding_ID data)
     ++ "/music/" ++ PathEscape env (File_Path data))%string.

(** ** The streaming revision *)

Module Streaming.

(** How the [for] loop over the metadata blocks ends: a [return] out of
    the handler, or the [break] after the last block, with the reader
    where the loop left it. *)
Inductive Loop :=
| Returned (c : Conn)
| Broke (c : Conn) (rd : io.Reader).

(** The [for { ... }] loop of [trackHandler].  Every turn reads at least
    the four header bytes, so [fuel] bounds the turns; [None] is the fuel
    running out. *)
Fixpoint walk (fuel : nat) (rd : io.Reader) (c : Conn) : option Loop :=
  match fuel with
  | O => None
  | S fuel' =>
      match parseBlockHeader rd with
      | None =>
          Some (Returned (Printf c "Failed to parse block header: %v\n" [AnError]))
      | Some (block, rd) =>
          let c := Printf c "Block: %v, %d, %d\n"
                     [ABool (LastBlock block); AnInt (Type_ block); AnInt (Length block)] in
          let (w1, err) := http.Write (Marshal block) (w c) in
          let c := with_w c w1 in
          if err
          then Some (Returned (Printf c "Failed to write response: %v\n" [AnError]))
          else
            let '(w2, rd, err) := io.CopyN (w c) rd (Length block) in
            let c := with_w c w2 in
            if err
            then Some (Returned (Printf c "Unable to decode track: %v\n" [AnError]))
            else if LastBlock block then Some (Broke c rd)
            else walk fuel' rd c
      end
  end.

(** [trackHandler] from the signature check to its end: [rd] is
    [resp.Body]. *)
Definition stream (rd : io.Reader) (c : Conn) : Conn :=
  let (fileMagic, rd) := io.ReadFull rd 4 in
  let bad :=
    match fileMagic with
    | None => true
    | Some m => negb (bytes_Equal m magic)
    end in
  if bad
  then
    let c := with_w c (http.Error (w c) "Internal Server Error"
                         http.StatusInternalServerError) in
    Printf c "Unable to decode track: %v\n"
      [match fileMagic with None => AnError | Some _ => NoError end]
  else
    let c := with_w c (http.Header_Add "Content-Type" "audio/flac" (w c)) in
    let (w1, err) := http.Write magic (w c) in
    let c := with_w c w1 in
    let c := if err then Printf c "Failed to write response: %v\n" [AnError] else c in
    let '(w2, rd, err) := io.CopyN (w c) rd 38 in
    let c := with_w c w2 in
    if err
    then Printf c "Unable to decode track: %v\n" [AnError]
    else
      match walk (S (List.length rd)) rd c with
      | None => c
      | Some (Returned c) => c
      | Some (Broke c rd) =>
          let '(w3, _, err) := io.Copy (w c) rd in
          let c := with_w c w3 in
          if err
          then Printf c "Unable to decode track: %v\n" [AnError]
          else c
      end.

(** [func trackHandler(w http.ResponseWriter, r *http.Request)]. *)
Definition trackHandler (env : Env) (w0 : http.ResponseWriter) (r : http.Request) : Conn :=
  let c := start w0 in
  if negb (String.eqb (http.Method r) "GET")
  then with_w c (http.Error (w c) "Method Not Allowed" http.StatusMethodNotAllowed)
  else
    let match_ := FindStringSubmatch (http.Path r) in
    if (List.length match_ <? 2)%nat
    then with_w c (http.NotFound (w c))
    else
      let (loaded, urls) := loadTrackInfo env (nth 1 match_ EmptyString) in
      let c := called c urls in
      match loaded with
      | inr (TrackNotFoundError _) => with_w c (http.NotFound (w c))
      | inr _ =>
          let c := with_w c (http.Error (w c) "Internal Server Error"
                               http.StatusInternalServerError) in
          Printf c "Unable to load track information: %v\n" [AnError]
      | inl data =>
          let url := mossTrackURL env data in
          let reply := Get env url in
          let c := called c [url] in
          let failed :=
            match reply with
            | http.Received resp => negb (http.StatusCode resp =? 200)
            | _ => true
            end in
          let c :=
            if failed
            then
              let c := with_w c (http.Error (w c) "Internal Server Error"
                                   http.StatusInternalServerError) in
              Printf c "Unable to access track: %v\n"
                [match reply with http.Received _ => NoError | _ => AnError end]
            else c in
          match reply with
          | http.TransportError => panic c
          | http.RedirectError _ => stream [] c
          | http.Received resp => stream (http.Body resp) c
          end
      end.

End Streaming.

(** ** The revision of [main.go] *)

Module Tagging.

(** The machine the handler runs on: whether [ioutil.TempFile], the
    file's [Close] and [os.Open] succeed, how many bytes the temporary
    file can take, its name, and [cmd.Run] for a command line and a
    standard input on the contents of the file it names ([None]: the
    command failed), and what [http.ServeContent], called with
    [time.Now()] as the modification time, settles on for the [Range] and
    precondition headers of a request and the size of the file. *)
Record Host := {
  TempFile_ok : bool;
  tmp_name : string;
  disk_room : option nat;
  Close_ok : bool;
  Run : list string -> string -> list byte -> option (list byte);
  Open_ok : bool;
  Preconditions : list (string * string) -> nat -> http.Served
}.

(** The connection, the temporary file ([None] when there is none) and
    the largest size the temporary file has had. *)
Record State := {
  conn : Conn;
  tmpf : option (list byte);
  disk_peak : nat
}.

Definition reply (s : State) (c : Conn) : State :=
  {| conn := c; tmpf := tmpf s; disk_peak := disk_peak s |}.

Definition store (s : State) (content : list byte) : State :=
  {| conn := conn s; tmpf := Some content;
     disk_peak := Nat.max (disk_peak s) (List.length content) |}.

(** The deferred [os.Remove(tmpf.Name())]. *)
Definition remove (s : State) : State :=
  {| conn := conn s; tmpf := None; disk_peak := disk_peak s |}.

(** [http.Error(w, "Internal Server Error", ...)] followed by
    [log.Printf(fmt, err)]. *)
Definition fail (c : Conn) (fmt : string) (a : LogArg) : Conn :=
  Printf (with_w c (http.Error (w c) "Internal Server Error"
                      http.StatusInternalServerError)) fmt [a].

(** The arguments of [exec.Command("metaflac", ...)]. *)
Definition metaflac_args (name : string) : list string :=
  ["--remove-tag=ARTIST"; "--remove-tag=TITLE"; "--remove-tag=ALBUM";
   "--remove-tag=LABEL"; "--import-tags-from=-"; name]%string.

(** [fmt.Sprintf("ARTIST=%s\nTITLE=%s\nALBUM=dmca test\nLABEL=dmca test\n",
    track.Artist, track.Title)]. *)
Definition metaflac_stdin (track : TrackJSON) : string :=
  ("ARTIST=" ++ Artist track ++ String "010" "TITLE=" ++ Title track
     ++ String "010" "ALBUM=dmca test" ++ String "010" "LABEL=dmca test"
     ++ String "010" EmptyString)%string.

(** [func trackHandler(w http.ResponseWriter, r *http.Request)]. *)
Definition trackHandler (env : Env) (host : Host)
    (w0 : http.ResponseWriter) (r : http.Request) : State :=
  let s := {| conn := start w0; tmpf := None; disk_peak := 0 |} in
  let c := conn s in
  if negb (String.eqb (http.Method r) "GET")
  then reply s (with_w c (http.Error (w c) "Method Not Allowed"
                            http.StatusMethodNotAllowed))
  else
    let match_ := FindStringSubmatch (http.Path r) in
    if (List.length match_ <? 2)%nat
    then reply s (with_w c (http.NotFound (w c)))
    else
      let (loaded, urls) := loadTrackInfo env (nth 1 match_ EmptyString) in
      let c := called c urls in
      match loaded with
      | inr (TrackNotFoundError _) => reply s (with_w c (http.NotFound (w c)))
      | inr _ => reply s (fail c "Failed to load track information: %v\n" AnError)
      | inl track =>
          let url := mossTrackURL env track in
          let c := called c [url] in
          match Get env url with
          | http.TransportError | http.RedirectError _ =>
              reply s (fail c "Failed to access track: %v\n" AnError)
          | http.Received resp =>
              if negb (http.StatusCode resp =? 200)
              then reply s (fail c "Failed to access track: %v\n" NoError)
              else if negb (TempFile_ok host)
              then reply s (fail c "Failed to create temporary file: %v\n" AnError)
              else
                let s := store s [] in
                let (content, err) := io.CopyToFile (disk_room host) (http.Body resp) in
                let s := store s content in
                if err
                then remove (reply s (fail c "Failed to download track: %v\n" AnError))
                else if negb (Close_ok host)
                then remove (reply s (fail c "Failed to close temporary file: %v\n" AnError))
                else
                  match Run host ("metaflac"%string :: metaflac_args (tmp_name host))
                          (metaflac_stdin track) content with
                  | None =>
                      remove (reply s (fail c "Failed to modify track metadata: %v\n" AnError))
                  | Some content' =>
                      let s := store s content' in
                      if negb (Open_ok host)
                      then remove (reply s (fail c "Failed to load track: %v\n" AnError))
                      else remove (reply s (with_w c
                             (http.ServeContent (w c) r (Preconditions host) content')))
                  end
          end
      end.

End Tagging.

(** ** [metaflac] on the tag entries *)

Module metaflac.

(** Modelled from the spec: [metaflac] is an external program, absent from
    the sources.  What its options do to the tag entries of a file follows
    its manual and section 4.3: [--remove-tag=NAME] removes every entry
    whose name is [NAME], compared without regard to case;
    [--import-tags-from=-] appends one entry per [NAME=VALUE] line of the
    standard input, after the entries that are left; options take effect
    in the order they are given; an argument that is not an option names
    the file. *)
Definition Tag : Type := string * string.

(** Modelled from the spec: ASCII upper case, for names compared without
    regard to case. *)
Definition upper (c : ascii) : ascii :=
  if Ascii.leb "a" c && Ascii.leb c "z"
  then ascii_of_nat (nat_of_ascii c - 32)
  else c.

(** Modelled from the spec: two names that differ in case at most. *)
Fixpoint same_name (a b : string) : bool :=
  match a, b with
  | EmptyString, EmptyString => true
  | String x a', String y b' => Ascii.eqb (upper x) (upper y) && same_name a' b'
  | _, _ => false
  end.

(** Modelled from the spec: [--remove-tag=NAME]. *)
Definition remove_tag (name : string) (tags : list Tag) : list Tag :=
  filter (fun t => negb (same_name (fst t) name)) tags.

(** Modelled from the spec: the lines of a text; a newline ends a line. *)
Fixpoint lines (s : string) : list string :=
  match s with
  | EmptyString => []
  | String c s' =>
      if Ascii.eqb c "010" then EmptyString :: lines s'
      else match lines s' with
           | [] => [String c EmptyString]
           | l :: ls => String c l :: ls
           end
  end.

(** Modelled from the spec: [NAME=VALUE], cut at the first [=]; a line
    without [=] is an error. *)
Fixpoint field (s : string) : option Tag :=
  match s with
  | EmptyString => None
  | String c s' =>
      if Ascii.eqb c "=" then Some (EmptyString, s')
      else match field s' with
           | Some (k, v) => Some (String c k, v)
           | None => None
           end
  end.

(** Modelled from the spec: one entry per line. *)
Fixpoint fields (ls : list string) : option (list Tag) :=
  match ls with
  | [] => Some []
  | l :: ls' =>
      match field l, fields ls' with
      | Some t, Some ts => Some (t :: ts)
      | _, _ => None
      end
  end.

(** Modelled from the spec: [--import-tags-from=-], the entries of the
    standard input appended after those of the file. *)
Definition import_tags (stdin : string) (tags : list Tag) : option (list Tag) :=
  option_map (app tags) (fields (lines stdin)).

(** Modelled from the spec: the tag entries after [metaflac args...] has
    run with [stdin]; [None] when it fails. *)
Fixpoint run (args : list string) (stdin : string) (tags : list Tag)
  : option (list Tag) :=
  match args with
  | [] => Some tags
  | a :: args' =>
      match literal "--remove-tag=" a with
      | Some name => run args' stdin (remove_tag name tags)
      | None =>
          if String.eqb a "--import-tags-from=-"
          then andThen (import_tags stdin tags) (run args' stdin)
          else match literal "--" a with
               | Some _ => None
               | None => run args' stdin tags
               end
      end
  end.

End metaflac.

(** * Part 2: vocabulary of the statements *)

(** ** Headers and bits *)

(** The number spelt by a run of bits, most significant first. *)
Definition value_of_bits (bits : list bool) (acc : Z) : Z :=
  fold_left (fun a x => 2 * a + Z.b2z x) bits acc.

(** The header spelt by four bytes: flag in the top bit of the first byte,
    type in its low seven bits, length in the other three, big-endian. *)
Definition header_of_bytes (b0 b1 b2 b3 : byte) : BlockHeader :=
  {| LastBlock := Z.testbit (byte_to_Z b0) 7;
     Type_ := Z.land (byte_to_Z b0) 127;
     Length := Z.lor (Z.shiftl (byte_to_Z b1) 16)
                 (Z.lor (Z.shiftl (byte_to_Z b2) 8) (byte_to_Z b3)) |}.

(** ** Replies and log lines *)

Definition conn_of (l : Streaming.Loop) : Conn :=
  match l with
  | Streaming.Returned c => c
  | Streaming.Broke c _ => c
  end.

Definition status (w0 : http.ResponseWriter) : option Z :=
  option_map fst (http.wrote w0).

Definition error_line (s : string) : list byte :=
  bytes_of (s ++ String "010" EmptyString).

Definition block_line (h : BlockHeader) : LogLine :=
  {| format := "Block: %v, %d, %d\n";
     args := [ABool (LastBlock h); AnInt (Type_ h); AnInt (Length h)] |}.

Definition decode_line : LogLine :=
  {| format := "Unable to decode track: %v\n"; args := [AnError] |}.

Definition ok (content : list byte) : http.Reply :=
  http.Received {| http.StatusCode := 200; http.Body := content |}.

Definition placeholders : list metaflac.Tag :=
  [("ALBUM", "dmca test"); ("LABEL", "dmca test")]%string.

(** ** The temporary file *)

(** Every step between the catalog and the reply works: the object store
    answers with status 200 and [content], the temporary file is created,
    takes all of [content] and is closed, [metaflac] turns it into
    [content'], and the file is opened again. *)
Definition every_step_succeeds (env : Env) (host : Tagging.Host) (track : TrackJSON)
    (content content' : list byte) : Prop :=
  Get env (mossTrackURL env track) = ok content /\
  Tagging.TempFile_ok host = true /\
  io.CopyToFile (Tagging.disk_room host) content = (content, false) /\
  Tagging.Close_ok host = true /\
  Tagging.Run host ("metaflac"%string :: Tagging.metaflac_args (Tagging.tmp_name host))
    (Tagging.metaflac_stdin track) content = Some content' /\
  Tagging.Open_ok host = true.

(** The temporary file has held all of [content], then [content'], and
    the reply is what [http.ServeContent] makes of [content']. *)
Definition stored_then_served (host : Tagging.Host) (w0 : http.ResponseWriter)
    (r : http.Request) (s : Tagging.State) (content content' : list byte) : Prop :=
  (List.length content <= Tagging.disk_peak s)%nat /\
  Tagging.disk_peak s = Nat.max (List.length content) (List.length content') /\
  w (Tagging.conn s) = http.ServeContent w0 r (Tagging.Preconditions host) content'.

(** ** Files and their blocks *)

(** A metadata block as the format has it: a type and a body. *)
Record Block := { block_type : Z; block_body : list byte }.

Definition block_header (last : bool) (b : Block) : BlockHeader :=
  {| LastBlock := last; Type_ := block_type b;
     Length := Z.of_nat (List.length (block_body b)) |}.

Definition encode_block (last : bool) (b : Block) : list byte :=
  Marshal (block_header last b) ++ block_body b.

(** The blocks one after the other, the last one flagged. *)
Fixpoint encode_blocks (bs : list Block) : list byte :=
  match bs with
  | [] => []
  | [b] => encode_block true b
  | b :: bs' => encode_block false b ++ encode_blocks bs'
  end.

Definition well_formed (b : Block) : Prop :=
  0 <= block_type b <= 126 /\ Z.of_nat (List.length (block_body b)) <= 16777215.

(** The metadata blocks at the head of [rd], up to the first one whose
    last-block flag is set: each header with the body it declares. *)
Fixpoint metadata_blocks (fuel : nat) (rd : list byte) : list (BlockHeader * list byte) :=
  match fuel with
  | O => []
  | S fuel' =>
      match parseBlockHeader rd with
      | None => []
      | Some (h, rd') =>
          let n := Z.to_nat (Length h) in
          (h, firstn n rd') ::
          (if LastBlock h then [] else metadata_blocks fuel' (skipn n rd'))
      end
  end.

Definition flag_and_type (b : BlockHeader * list byte) : bool * Z :=
  (LastBlock (fst b), Type_ (fst b)).

(** ** Sample requests, services and files *)

Definition uuid0 : string := "01234567-89ab-cdef-0123-456789abcdef".

Definition req0 : http.Request :=
  {| http.Method := "GET"; http.Path := "/track/" ++ uuid0 ++ ".flac";
     http.Header := [] |}.

Definition post0 : http.Request :=
  {| http.Method := "POST"; http.Path := http.Path req0; http.Header := [] |}.

Definition stray0 : http.Request :=
  {| http.Method := "GET"; http.Path := "/track/not-a-uuid.flac";
     http.Header := [] |}.

Definition config0 : Config :=
  {| impalaURL := "http://impala"; impalaUsername := "dmca";
     impalaPassword := "secret"; mossURL := "http://moss" |}.

Definition track0 : TrackJSON :=
  {| Added_At := "2017-01-01"; Added_By := "librarian";
     Artist := "Catalog Artist"; Disc_Num := 1; File_Path := "01.flac";
     Has_FCC := "false"; Holding_ID := "h1"; ID := uuid0;
     Recording_MBID := EmptyString; Title := "Catalog Title";
     Track_MBID := EmptyString;
     Track_Num := 1 |}.

(** A catalog that answers the login, answers [tracks] for the track
    lookup, and an object store that answers [moss]. *)
Definition env0 (tracks moss : http.Reply) : Env :=
  {| config := config0;
     NewRequest_ok := fun _ => true;
     Get := fun url =>
       if String.eqb url "http://impala/api/v1/login"
       then http.Received {| http.StatusCode := 200; http.Body := [] |}
       else if String.eqb url ("http://impala/api/v1/tracks/" ++ uuid0)
       then tracks
       else moss;
     Decode := fun _ => Some track0;
     PathEscape := fun s => s |}.

Definition found : http.Reply :=
  http.Received {| http.StatusCode := 200; http.Body := bytes_of "{}" |}.

Definition missing : http.Reply :=
  http.Received {| http.StatusCode := 404; http.Body := [] |}.

Definition unavailable (content : list byte) : http.Reply :=
  http.Received {| http.StatusCode := 503; http.Body := content |}.

Definition host0 : Tagging.Host :=
  {| Tagging.TempFile_ok := true;
     Tagging.tmp_name := "/tmp/dmca042";
     Tagging.disk_room := None;
     Tagging.Close_ok := true;
     Tagging.Run := fun _ _ content => Some content;
     Tagging.Open_ok := true;
     Tagging.Preconditions := fun _ _ => http.Whole |}.

(** A STREAMINFO block: header (not last, type 0, length 34) and body. *)
Definition streaminfo0 : list byte :=
  [x00; x00; x00; x22] ++ repeat x2a 34.

(** A last PADDING block of two bytes, a last block of type 127 of one
    byte, and the start of an audio frame. *)
Definition padding_last : list byte := [x81; x00; x00; x02; x00; x00].
Definition reserved_last : list byte := [xff; x00; x00; x01; xaa].
Definition frames0 : list byte := [xff; xf8; xc9; x18; x00; xc2].

Definition flac0 : list byte := magic ++ streaminfo0 ++ padding_last ++ frames0.
Definition flac127 : list byte := magic ++ streaminfo0 ++ reserved_last ++ frames0.

Definition ogg : list byte := bytes_of "OggS-and-more".

Definition short_block : list byte := [x04; x00; x00; x05; xaa].

Definition padding2 : Block := {| block_type := 1; block_body := [x00; x00] |}.

Definition tags_header : BlockHeader :=
  {| LastBlock := true; Type_ := 4; Length := 70000 |}.

Definition reserved_header : BlockHeader :=
  {| LastBlock := true; Type_ := 127; Length := 1 |}.

Definition short_header : BlockHeader :=
  {| LastBlock := false; Type_ := 4; Length := 5 |}.

Definition old_tags : list metaflac.Tag :=
  [("TITLE", "Old Title"); ("GENRE", "Rock"); ("album", "Real Album");
   ("Label", "Real Label"); ("DATE", "1999")]%string.

(** * Part 2b: more of the program *)

(** ** The error types *)

(** [func (e TrackNotFoundError) Error() string]. *)
Definition TrackNotFoundError_Error (id : string) : string :=
  ("Track not found: " ++ id)%string.

(** [func (e TrackFetchError) Error() string]. *)
Definition TrackFetchError_Error (id : string) : string :=
  ("Error fetching track information: " ++ id)%string.

(** [err.Error()] for the two error types of the program. *)
Definition Error_text (e : error) : option string :=
  match e with
  | TrackNotFoundError id => Some (TrackNotFoundError_Error id)
  | TrackFetchError id => Some (TrackFetchError_Error id)
  | OtherError => None
  end.

(** ** The revision before the block walk *)

Module Copying.

(** [trackHandler] from the signature check to its end: the signature, the
    38 bytes of STREAMINFO, then everything else in one [io.Copy].  The
    result of [w.Write(magic)] is dropped. *)
Definition stream (rd : io.Reader) (c : Conn) : Conn :=
  let (fileMagic, rd) := io.ReadFull rd 4 in
  let bad :=
    match fileMagic with
    | None => true
    | Some m => negb (bytes_Equal m magic)
    end in
  if bad
  then
    let c := with_w c (http.Error (w c) "Internal Server Error"
                         http.StatusInternalServerError) in
    Printf c "Unable to decode track: %v\n"
      [match fileMagic with None => AnError | Some _ => NoError end]
  else
    let c := with_w c (http.Header_Add "Content-Type" "audio/flac" (w c)) in
    let c := with_w c (fst (http.Write magic (w c))) in
    let '(w2, rd, err) := io.CopyN (w c) rd 38 in
    let c := with_w c w2 in
    if err
    then Printf c "Unable to decode track: %v\n" [AnError]
    else
      let '(w3, _, err) := io.Copy (w c) rd in
      let c := with_w c w3 in
      if err
      then Printf c "Unable to decode track: %v\n" [AnError]
      else c.

(** [func trackHandler(w http.ResponseWriter, r *http.Request)]. *)
Definition trackHandler (env : Env) (w0 : http.ResponseWriter) (r : http.Request) : Conn :=
  let c := start w0 in
  if negb (String.eqb (http.Method r) "GET")
  then with_w c (http.Error (w c) "Method Not Allowed" http.StatusMethodNotAllowed)
  else
    let match_ := FindStringSubmatch (http.Path r) in
    if (List.length match_ <? 2)%nat
    then with_w c (http.NotFound (w c))
    else
      let (loaded, urls) := loadTrackInfo env (nth 1 match_ EmptyString) in
      let c := called c urls in
      match loaded with
      | inr (TrackNotFoundError _) => with_w c (http.NotFound (w c))
      | inr _ =>
          let c := with_w c (http.Error (w c) "Internal Server Error"
                               http.StatusInternalServerError) in
          Printf c "Unable to load track information: %v\n" [AnError]
      | inl data =>
          let url := mossTrackURL env data in
          let reply := Get env url in
          let c := called c [url] in
          let failed :=
            match reply with
            | http.Received resp => negb (http.StatusCode resp =? 200)
            | _ => true
            end in
          let c :=
            if failed
            then
              let c := with_w c (http.Error (w c) "Internal Server Error"
                                   http.StatusInternalServerError) in
              Printf c "Unable to access track: %v\n"
                [match reply with http.Received _ => NoError | _ => AnError end]
            else c in
          match reply with
          | http.TransportError => panic c
          | http.RedirectError _ => stream [] c
          | http.Received resp => stream (http.Body resp) c
          end
      end.

End Copying.

(** ** Vocabulary of the further statements *)

(** What [Marshal] keeps of a header: the low seven bits of the type, the
    flag flipped when the type has its top bit set, the low 24 bits of the
    length. *)
Definition masked (h : BlockHeader) : BlockHeader :=
  {| LastBlock := xorb (LastBlock h) (128 <=? Type_ h);
     Type_ := Type_ h mod 128;
     Length := Length h mod 16777216 |}.

(** A file whose last block header is followed by three stray bytes. *)
Definition ragged : list byte :=
  magic ++ streaminfo0 ++ [x00; x00; x00; x01; x07; xaa; xbb].

(** The sample catalog with a login that is refused. *)
Definition env401 (tracks moss : http.Reply) : Env :=
  {| config := config0;
     NewRequest_ok := fun _ => true;
     Get := fun url =>
       if String.eqb url "http://impala/api/v1/login"
       then http.Received {| http.StatusCode := 401; http.Body := bytes_of "Unauthorized" |}
       else if String.eqb url ("http://impala/api/v1/tracks/" ++ uuid0)
       then tracks
       else moss;
     Decode := fun _ => Some track0;
     PathEscape := fun s => s |}.

Definition access_line (a : LogArg) : LogLine :=
  {| format := "Unable to access track: %v\n"; args := [a] |}.


(** ** The shape of a path that the route takes *)

Fixpoint all_hex (s : string) : bool :=
  match s with
  | EmptyString => true
  | String c s' => hexdigit c && all_hex s'
  end.

(** [n] characters, each of [[a-f0-9]]. *)
Definition hex (n : nat) (s : string) : Prop :=
  String.length s = n /\ all_hex s = true.

Definition uuid_of (a b c d e : string) : string :=
  (a ++ "-" ++ b ++ "-" ++ c ++ "-" ++ d ++ "-" ++ e)%string.

(** ** Text without a line break *)

Fixpoint no_newline (s : string) : bool :=
  match s with
  | EmptyString => true
  | String c s' => negb (Ascii.eqb c "010") && no_newline s'
  end.

(** * Part 3: proofs *)

(** ** Facts about bytes *)

Lemma byte_to_Z_range (b : byte) : 0 <= byte_to_Z b < 256.
Proof.
  unfold byte_to_Z.
  pose proof (Byte.to_N_bounded b) as H.
  lia.
Qed.

Lemma byte_of_to_Z (b : byte) : byte_of_Z (byte_to_Z b) = b.
Proof.
  unfold byte_of_Z, to_uint8.
  rewrite Z.mod_small by apply byte_to_Z_range.
  unfold byte_to_Z. rewrite N2Z.id, Byte.of_to_N. reflexivity.
Qed.

Lemma byte_to_of_Z (z : Z) : 0 <= z < 256 -> byte_to_Z (byte_of_Z z) = z.
Proof.
  intros Hz. unfold byte_of_Z, to_uint8.
  rewrite Z.mod_small by assumption.
  destruct (Byte.of_N (Z.to_N z)) as [b|] eqn:E.
  - apply Byte.to_of_N in E. unfold byte_to_Z. rewrite E. lia.
  - apply Byte.of_N_None_iff in E. lia.
Qed.

(** ** The bit reader on whole bytes *)

Lemma Read_add (n m : nat) : forall acc br,
  bit.Read (n + m) acc br =
  match bit.Read n acc br with
  | None => None
  | Some (v, br') => bit.Read m v br'
  end.
Proof.
  induction n as [|n IH]; intros acc br; simpl.
  - reflexivity.
  - destruct (bit.next_bit br) as [[x br']|]; [apply IH | reflexivity].
Qed.

Lemma value_of_byte_bits (b : byte) :
  value_of_bits (bit.bits_of_byte b) 0 = byte_to_Z b.
Proof. destruct b; vm_compute; reflexivity. Qed.

Lemma value_of_flag_and_type (b : byte) :
  value_of_bits (firstn 1 (bit.bits_of_byte b)) 0 = byte_to_Z b / 128 /\
  value_of_bits (skipn 1 (bit.bits_of_byte b)) 0 = byte_to_Z b mod 128.
Proof. destruct b; vm_compute; split; reflexivity. Qed.

Tactic Notation "run_reader" :=
  cbn -[Z.mul Z.add Z.sub Z.testbit byte_to_Z Z.leb Z.div Z.modulo].
Tactic Notation "run_reader" "in" hyp(H) :=
  cbn -[Z.mul Z.add Z.sub Z.testbit byte_to_Z Z.leb Z.div Z.modulo] in H.

(** Eight bits read at a byte boundary are that byte, appended below the
    bits read before. *)
Lemma Read_byte (b : byte) (rest : io.Reader) (n acc : Z) :
  0 < n ->
  bit.Read 8 acc {| bit.r := {| io.R := b :: rest; io.N := n |}; bit.pending := [] |} =
  Some (256 * acc + byte_to_Z b,
        {| bit.r := {| io.R := rest; io.N := n - 1 |}; bit.pending := [] |}).
Proof.
  intros Hn.
  unfold bit.Read, bit.next_bit, io.ReadByte. run_reader.
  destruct (n <=? 0) eqn:E; [apply Z.leb_le in E; lia|]. run_reader.
  pose proof (value_of_byte_bits b) as Hb.
  unfold value_of_bits, bit.bits_of_byte in Hb. run_reader in Hb.
  do 2 f_equal. lia.
Qed.

Lemma Read_eof (k : nat) (n acc : Z) :
  bit.Read (S k) acc {| bit.r := {| io.R := []; io.N := n |}; bit.pending := [] |} = None.
Proof.
  unfold bit.Read, bit.next_bit, io.ReadByte. run_reader.
  destruct (n <=? 0); reflexivity.
Qed.

(** The flag bit and the seven type bits of the first byte. *)
Lemma Read_flag_type (b : byte) (rest : io.Reader) (n : Z) :
  0 < n ->
  bit.ReadFields [1; 7]%nat
    {| bit.r := {| io.R := b :: rest; io.N := n |}; bit.pending := [] |} =
  Some ([byte_to_Z b / 128; byte_to_Z b mod 128],
        {| bit.r := {| io.R := rest; io.N := n - 1 |}; bit.pending := [] |}).
Proof.
  intros Hn.
  unfold bit.ReadFields, bit.Read, bit.next_bit, io.ReadByte. run_reader.
  destruct (n <=? 0) eqn:E; [apply Z.leb_le in E; lia|]. run_reader.
  destruct (value_of_flag_and_type b) as [H1 H2].
  unfold value_of_bits, bit.bits_of_byte in H1, H2. run_reader in H1. run_reader in H2.
  rewrite H1, H2. reflexivity.
Qed.

Lemma ReadFields_app (ns ms : list nat) : forall br,
  bit.ReadFields (ns ++ ms) br =
  match bit.ReadFields ns br with
  | None => None
  | Some (vs, br') =>
      match bit.ReadFields ms br' with
      | None => None
      | Some (ws, br'') => Some (vs ++ ws, br'')
      end
  end.
Proof.
  induction ns as [|n ns IH]; intros br; simpl.
  - destruct (bit.ReadFields ms br) as [[ws br'']|]; reflexivity.
  - destruct (bit.Read n 0 br) as [[v br']|]; [|reflexivity].
    rewrite IH.
    destruct (bit.ReadFields ns br') as [[vs br1]|]; [|reflexivity].
    destruct (bit.ReadFields ms br1) as [[ws br2]|]; reflexivity.
Qed.

(** The three length bytes, big-endian. *)
Lemma Read_length (b1 b2 b3 : byte) (rest : io.Reader) (n : Z) :
  2 < n ->
  bit.ReadFields [24]%nat
    {| bit.r := {| io.R := b1 :: b2 :: b3 :: rest; io.N := n |}; bit.pending := [] |} =
  Some ([65536 * byte_to_Z b1 + 256 * byte_to_Z b2 + byte_to_Z b3],
        {| bit.r := {| io.R := rest; io.N := n - 3 |}; bit.pending := [] |}).
Proof.
  intros Hn.
  change (bit.ReadFields [24]%nat ?br) with
    (match bit.Read (8 + (8 + 8)) 0 br with
     | None => None
     | Some (v, br') => Some ([v], br')
     end).
  rewrite Read_add, Read_byte, Read_add, Read_byte, Read_byte by lia.
  f_equal. f_equal.
  - f_equal. lia.
  - do 2 f_equal. lia.
Qed.

(** ** What [parseBlockHeader] returns *)

Lemma flag_bit (b : byte) : (byte_to_Z b / 128 =? 1) = Z.testbit (byte_to_Z b) 7.
Proof. destruct b; vm_compute; reflexivity. Qed.

Lemma type_bits (b : byte) : byte_to_Z b mod 128 = Z.land (byte_to_Z b) 127.
Proof. destruct b; vm_compute; reflexivity. Qed.

Lemma lor_shifted (a b n : Z) :
  0 <= n -> 0 <= b < 2 ^ n -> Z.lor (Z.shiftl a n) b = a * 2 ^ n + b.
Proof.
  intros Hn Hb.
  rewrite Z.shiftl_mul_pow2 by assumption.
  assert (Hland : Z.land (a * 2 ^ n) b = 0).
  { apply Z.bits_inj'. intros k Hk.
    rewrite Z.land_spec, Z.bits_0.
    destruct (Z.ltb_spec k n) as [Hlt|Hge].
    - rewrite Z.mul_pow2_bits_low by lia. reflexivity.
    - rewrite <- (Z.mod_small b (2 ^ n)) by assumption.
      rewrite Z.mod_pow2_bits_high by lia.
      apply andb_false_r. }
  rewrite <- Z.lxor_lor by assumption.
  symmetry. apply Z.add_nocarry_lxor. assumption.
Qed.
Lemma length_bits (z1 z2 z3 : Z) :
  0 <= z1 < 256 -> 0 <= z2 < 256 -> 0 <= z3 < 256 ->
  Z.lor (Z.shiftl z1 16) (Z.lor (Z.shiftl z2 8) z3) = 65536 * z1 + 256 * z2 + z3.
Proof.
  intros H1 H2 H3.
  rewrite (lor_shifted z2 z3 8) by lia.
  rewrite lor_shifted by lia. lia.
Qed.

Lemma parseBlockHeader_bytes (b0 b1 b2 b3 : byte) (rest : io.Reader) :
  parseBlockHeader (b0 :: b1 :: b2 :: b3 :: rest) =
  Some (header_of_bytes b0 b1 b2 b3, rest).
Proof.
  unfold parseBlockHeader, bit.NewReader.
  change [1; 7; 24]%nat with ([1; 7] ++ [24])%nat.
  rewrite ReadFields_app, Read_flag_type, Read_length by lia.
  cbn [app nth bit.r io.R].
  pose proof (byte_to_Z_range b0). pose proof (byte_to_Z_range b1).
  pose proof (byte_to_Z_range b2). pose proof (byte_to_Z_range b3).
  unfold header_of_bytes.
  rewrite flag_bit, <- type_bits, length_bits by assumption.
  unfold to_uint8, to_int64.
  do 2 f_equal.
  f_equal.
  - rewrite Z.mod_small; [reflexivity|].
    pose proof (Z.mod_pos_bound (byte_to_Z b0) 128). lia.
  - rewrite Z.mod_small; lia.
Qed.

Lemma parseBlockHeader_short (rd : io.Reader) :
  (List.length rd < 4)%nat -> parseBlockHeader rd = None.
Proof.
  intros Hlen.
  unfold parseBlockHeader, bit.NewReader.
  destruct rd as [|b0 rd].
  { reflexivity. }
  change [1; 7; 24]%nat with ([1; 7] ++ [24])%nat.
  rewrite ReadFields_app, Read_flag_type by lia.
  change (bit.ReadFields [24]%nat ?br) with
    (match bit.Read (8 + (8 + 8)) 0 br with
     | None => None
     | Some (v, br') => Some ([v], br')
     end).
  rewrite Read_add.
  destruct rd as [|b1 rd]; [rewrite Read_eof; reflexivity|].
  rewrite Read_byte, Read_add by lia.
  destruct rd as [|b2 rd]; [rewrite Read_eof; reflexivity|].
  rewrite Read_byte by lia.
  destruct rd as [|b3 rd]; [rewrite Read_eof; reflexivity|].
  simpl in Hlen. lia.
Qed.

Lemma parseBlockHeader_some (rd : io.Reader) (h : BlockHeader) (rd' : io.Reader) :
  parseBlockHeader rd = Some (h, rd') ->
  exists b0 b1 b2 b3,
    rd = b0 :: b1 :: b2 :: b3 :: rd' /\ h = header_of_bytes b0 b1 b2 b3.
Proof.
  intros Hp.
  destruct rd as [|b0 [|b1 [|b2 [|b3 rest]]]];
    try (rewrite parseBlockHeader_short in Hp by (simpl; lia); discriminate).
  rewrite parseBlockHeader_bytes in Hp. injection Hp as <- <-.
  exists b0, b1, b2, b3. split; reflexivity.
Qed.

(** ** What [Marshal] returns *)

Lemma length_bytes (z1 z2 z3 : Z) :
  0 <= z1 < 256 -> 0 <= z2 < 256 -> 0 <= z3 < 256 ->
  let l := 65536 * z1 + 256 * z2 + z3 in
  to_uint8 (Z.shiftr l 16) = z1 /\ to_uint8 (Z.shiftr l 8) = z2 /\ to_uint8 l = z3.
Proof.
  intros H1 H2 H3 l. subst l. unfold to_uint8.
  rewrite !Z.shiftr_div_pow2 by lia.
  change (2 ^ 16) with 65536. change (2 ^ 8) with 256.
  repeat split; Z.to_euclidean_division_equations; lia.
Qed.

Lemma first_byte (b : byte) :
  byte_of_Z (if Z.testbit (byte_to_Z b) 7
             then Z.lxor (to_uint8 (Z.land (byte_to_Z b) 127)) 128
             else to_uint8 (Z.land (byte_to_Z b) 127)) = b.
Proof. destruct b; vm_compute; reflexivity. Qed.

Lemma Marshal_header_of_bytes (b0 b1 b2 b3 : byte) :
  Marshal (header_of_bytes b0 b1 b2 b3) = [b0; b1; b2; b3].
Proof.
  unfold Marshal, header_of_bytes; cbn [LastBlock Type_ Length].
  pose proof (byte_to_Z_range b1) as H1. pose proof (byte_to_Z_range b2) as H2.
  pose proof (byte_to_Z_range b3) as H3.
  rewrite length_bits by assumption.
  destruct (length_bytes _ _ _ H1 H2 H3) as (E1 & E2 & E3).
  rewrite E1, E2, E3, first_byte, !byte_of_to_Z. reflexivity.
Qed.

Lemma header_of_bytes_range (b0 b1 b2 b3 : byte) :
  0 <= Type_ (header_of_bytes b0 b1 b2 b3) <= 127 /\
  0 <= Length (header_of_bytes b0 b1 b2 b3) <= 16777215.
Proof.
  unfold header_of_bytes; cbn [Type_ Length].
  pose proof (byte_to_Z_range b0). pose proof (byte_to_Z_range b1).
  pose proof (byte_to_Z_range b2). pose proof (byte_to_Z_range b3).
  rewrite length_bits, <- type_bits by assumption.
  pose proof (Z.mod_pos_bound (byte_to_Z b0) 128). lia.
Qed.

(** Bit 7 of a type below 128 is clear, so [^= 0x80] sets it. *)
Lemma set_flag (t : Z) : 0 <= t < 128 -> Z.lxor t 128 = t + 128.
Proof.
  intros Ht. symmetry. apply Z.add_nocarry_lxor.
  apply Z.bits_inj'. intros k Hk. rewrite Z.land_spec, Z.bits_0.
  change 128 with (2 ^ 7). rewrite Z.pow2_bits_eqb by lia.
  destruct (Z.eqb_spec 7 k) as [<-|Hne]; [|apply andb_false_r].
  rewrite <- (Z.mod_small t (2 ^ 7)) by (change (2 ^ 7) with 128; lia).
  rewrite Z.mod_pow2_bits_high by lia. reflexivity.
Qed.

Lemma Marshal_bytes (h : BlockHeader) :
  0 <= Type_ h <= 127 -> 0 <= Length h <= 16777215 ->
  Marshal h =
  [byte_of_Z ((if LastBlock h then 128 else 0) + Type_ h);
   byte_of_Z (Length h / 65536);
   byte_of_Z (Length h / 256 mod 256);
   byte_of_Z (Length h mod 256)].
Proof.
  intros Ht Hl. unfold Marshal, to_uint8.
  rewrite !Z.shiftr_div_pow2 by lia.
  change (2 ^ 16) with 65536. change (2 ^ 8) with 256.
  rewrite (Z.mod_small (Type_ h)) by lia.
  rewrite (Z.mod_small (Length h / 65536))
    by (Z.to_euclidean_division_equations; lia).
  destruct (LastBlock h); [rewrite set_flag by lia|]; do 2 f_equal; lia.
Qed.

Lemma parse_Marshal (h : BlockHeader) (rest : io.Reader) :
  0 <= Type_ h <= 127 -> 0 <= Length h <= 16777215 ->
  parseBlockHeader (Marshal h ++ rest) = Some (h, rest).
Proof.
  intros Ht Hl.
  rewrite Marshal_bytes by assumption.
  cbn [app]. rewrite parseBlockHeader_bytes.
  assert (H0 : 0 <= (if LastBlock h then 128 else 0) + Type_ h < 256)
    by (destruct (LastBlock h); lia).
  assert (H1 : 0 <= Length h / 65536 < 256)
    by (Z.to_euclidean_division_equations; lia).
  assert (H2 : 0 <= Length h / 256 mod 256 < 256)
    by (Z.to_euclidean_division_equations; lia).
  assert (H3 : 0 <= Length h mod 256 < 256)
    by (Z.to_euclidean_division_equations; lia).
  unfold header_of_bytes.
  rewrite length_bits by (rewrite byte_to_of_Z; assumption).
  rewrite <- flag_bit, <- type_bits, !byte_to_of_Z by assumption.
  destruct h as [l t n]; cbn [LastBlock Type_ Length] in *.
  do 2 f_equal. f_equal.
  - destruct l; Z.to_euclidean_division_equations; lia.
  - destruct l; Z.to_euclidean_division_equations; lia.
  - Z.to_euclidean_division_equations; lia.
Qed.

(** [Length] is an [int64] and [Marshal] keeps its low 24 bits: a negative
    length does not come back.  The parser never produces one. *)
Example negative_length_does_not_come_back :
  parseBlockHeader (Marshal {| LastBlock := false; Type_ := 0; Length := -1 |}) =
  Some ({| LastBlock := false; Type_ := 0; Length := 16777215 |}, []).
Proof. vm_compute. reflexivity. Qed.

(** [^= 0x80] flips the top bit: on a type above 127 it clears the bit
    instead of setting it.  The parser never produces such a type. *)
Example flag_on_a_wide_type_is_lost :
  parseBlockHeader (Marshal {| LastBlock := true; Type_ := 132; Length := 0 |}) =
  Some ({| LastBlock := false; Type_ := 4; Length := 0 |}, []).
Proof. vm_compute. reflexivity. Qed.

(** C3: [parseBlockHeader] unpacks four bytes, most significant bit first,
    into a one-bit flag, a seven-bit type and a 24-bit big-endian length;
    [Marshal] returns exactly four bytes, in the same layout for a header
    whose fields fit; and parsing what [Marshal] returns gives the header
    back when the type is at most 126 and the length at most 16777215
    (both are unsigned quantities, so from 0 up). *)
Theorem header_codec_round_trip :
  (forall (b0 b1 b2 b3 : byte) (rest : io.Reader),
      parseBlockHeader (b0 :: b1 :: b2 :: b3 :: rest) =
      Some ({| LastBlock := Z.testbit (byte_to_Z b0) 7;
               Type_ := Z.land (byte_to_Z b0) 127;
               Length := Z.lor (Z.shiftl (byte_to_Z b1) 16)
                           (Z.lor (Z.shiftl (byte_to_Z b2) 8) (byte_to_Z b3)) |},
            rest)) /\
  (forall h : BlockHeader, List.length (Marshal h) = 4%nat) /\
  (forall h : BlockHeader,
      0 <= Type_ h <= 126 -> 0 <= Length h <= 16777215 ->
      Marshal h =
        [byte_of_Z ((if LastBlock h then 128 else 0) + Type_ h);
         byte_of_Z (Length h / 65536);
         byte_of_Z (Length h / 256 mod 256);
         byte_of_Z (Length h mod 256)] /\
      forall rest : io.Reader,
        parseBlockHeader (Marshal h ++ rest) = Some (h, rest)).
Proof.
  split; [|split].
  - intros. apply parseBlockHeader_bytes.
  - intros h. reflexivity.
  - intros h Ht Hl. split.
    + apply Marshal_bytes; lia.
    + intros rest. apply parse_Marshal; lia.
Qed.

Lemma header_codec_round_trip_witness :
  Marshal tags_header = [x84; x01; x11; x70] /\
  parseBlockHeader (Marshal tags_header ++ [x2a]) = Some (tags_header, [x2a]).
Proof.
  destruct header_codec_round_trip as (_ & _ & H).
  destruct (H tags_header) as [Hm Hp]; [cbn; lia | cbn; lia |].
  split.
  - rewrite Hm. reflexivity.
  - apply Hp.
Defined.

(** ** Writing to a client that takes everything *)

Lemma WriteHeader_same (code : Z) (w0 : http.ResponseWriter) :
  http.header (http.WriteHeader code w0) = http.header w0 /\
  http.body (http.WriteHeader code w0) = http.body w0 /\
  http.room (http.WriteHeader code w0) = http.room w0.
Proof. unfold http.WriteHeader. destruct (http.wrote w0); repeat split. Qed.

Lemma Write_unlimited (p : list byte) (w0 : http.ResponseWriter) :
  http.room w0 = None ->
  exists w1, http.Write p w0 = (w1, false) /\
             http.body w1 = http.body w0 ++ p /\ http.room w1 = None.
Proof.
  intros Hroom. unfold http.Write.
  destruct (WriteHeader_same 200 w0) as (_ & Hb & Hr).
  rewrite Hr, Hroom, Hb. eexists. repeat split.
Qed.

Lemma Copy_unlimited (w0 : http.ResponseWriter) (src : io.Reader) :
  http.room w0 = None ->
  exists w1, io.Copy w0 src = (w1, [], false) /\
             http.body w1 = http.body w0 ++ src /\ http.room w1 = None.
Proof.
  intros Hroom. unfold io.Copy. destruct src as [|b src].
  - exists w0. rewrite app_nil_r. repeat split; assumption.
  - destruct (Write_unlimited (b :: src) w0 Hroom) as (w1 & -> & Hb & Hr).
    exists w1. repeat split; assumption.
Qed.

Lemma CopyN_unlimited (w0 : http.ResponseWriter) (src : io.Reader) (n : Z) :
  http.room w0 = None ->
  exists w1,
    io.CopyN w0 src n =
      (w1, skipn (Z.to_nat n) src,
       Z.of_nat (List.length (firstn (Z.to_nat n) src)) <? n) /\
    http.body w1 = http.body w0 ++ firstn (Z.to_nat n) src /\
    http.room w1 = None.
Proof.
  intros Hroom. unfold io.CopyN.
  destruct (Copy_unlimited w0 (firstn (Z.to_nat n) src) Hroom) as (w1 & -> & Hb & Hr).
  exists w1. repeat split; assumption.
Qed.

(** ** The block walk *)

(** The loop always ends before the fuel does. *)
Lemma walk_total (fuel : nat) : forall rd c,
  (List.length rd < fuel)%nat -> exists l, Streaming.walk fuel rd c = Some l.
Proof.
  induction fuel as [|fuel IH]; intros rd c Hfuel; [lia|].
  cbn [Streaming.walk].
  destruct (parseBlockHeader rd) as [[h rd1]|] eqn:Hp; [|eexists; reflexivity].
  apply parseBlockHeader_some in Hp. destruct Hp as (b0 & b1 & b2 & b3 & -> & _).
  destruct (http.Write (Marshal h) _) as [w1 err1].
  destruct err1; [eexists; reflexivity|].
  unfold io.CopyN.
  destruct (io.Copy _ _) as [[w2 rd2] err2]. cbn [w with_w].
  destruct (err2 || _); [eexists; reflexivity|].
  destruct (LastBlock h); [eexists; reflexivity|].
  apply IH.
  pose proof (length_skipn (Z.to_nat (Length h)) rd1). simpl in Hfuel. lia.
Qed.

(** With a client that takes everything, what the loop has written is
    what it has read: its output extends by a prefix [pre] of its input,
    and a [break] leaves the reader at the rest. *)
Lemma walk_passthrough (fuel : nat) : forall rd c l,
  http.room (w c) = None ->
  Streaming.walk fuel rd c = Some l ->
  exists pre rest,
    rd = pre ++ rest /\
    http.body (w (conn_of l)) = http.body (w c) ++ pre /\
    http.room (w (conn_of l)) = None /\
    match l with
    | Streaming.Broke _ rd' => rd' = rest
    | Streaming.Returned _ => True
    end.
Proof.
  induction fuel as [|fuel IH]; intros rd c l Hroom Hwalk; [discriminate|].
  cbn [Streaming.walk] in Hwalk.
  destruct (parseBlockHeader rd) as [[h rd1]|] eqn:Hp.
  2:{ injection Hwalk as <-. exists [], rd. cbn. rewrite app_nil_r. auto. }
  apply parseBlockHeader_some in Hp. destruct Hp as (b0 & b1 & b2 & b3 & -> & ->).
  rewrite Marshal_header_of_bytes in Hwalk.
  cbn [w Printf] in Hwalk.
  destruct (Write_unlimited [b0; b1; b2; b3] (w c) Hroom) as (w1 & Hw & Hb1 & Hr1).
  rewrite Hw in Hwalk. cbn [w with_w Printf] in Hwalk.
  set (n := Length (header_of_bytes b0 b1 b2 b3)) in *.
  destruct (CopyN_unlimited w1 rd1 n Hr1) as (w2 & Hc & Hb2 & Hr2).
  rewrite Hc in Hwalk. cbn [w with_w Printf] in Hwalk.
  assert (Hbody : http.body w2 =
                  http.body (w c) ++ [b0; b1; b2; b3] ++ firstn (Z.to_nat n) rd1).
  { rewrite Hb2, Hb1, <- app_assoc. reflexivity. }
  assert (Hsplit : b0 :: b1 :: b2 :: b3 :: rd1 =
            ([b0; b1; b2; b3] ++ firstn (Z.to_nat n) rd1) ++ skipn (Z.to_nat n) rd1).
  { rewrite <- app_assoc, firstn_skipn. reflexivity. }
  destruct (_ <? n).
  { injection Hwalk as <-. do 2 eexists. cbn. eauto. }
  destruct (LastBlock _).
  { injection Hwalk as <-. do 2 eexists. cbn. eauto. }
  apply IH in Hwalk; [|assumption].
  destruct Hwalk as (pre & rest & Hrd & Hb & Hr & Hl).
  exists (([b0; b1; b2; b3] ++ firstn (Z.to_nat n) rd1) ++ pre), rest.
  cbn [w with_w Printf] in Hb.
  repeat split.
  - rewrite Hsplit, Hrd, <- !app_assoc. reflexivity.
  - rewrite Hb, Hbody, <- !app_assoc. reflexivity.
  - assumption.
  - assumption.
Qed.

(** C10: a header parsed from four bytes has a type of at most 127 and a
    length between 0 and 16777215, and [Marshal] gives the four bytes
    back; so what the walk writes to a client that takes every write,
    headers included, is byte for byte what it read. *)
Theorem parsed_header_marshals_to_input :
  (forall (input : list byte) (h : BlockHeader) (rd : io.Reader),
      List.length input = 4%nat ->
      parseBlockHeader input = Some (h, rd) ->
      0 <= Type_ h <= 127 /\ 0 <= Length h <= 16777215 /\ Marshal h = input) /\
  (forall (fuel : nat) (rd : io.Reader) (c : Conn) (l : Streaming.Loop),
      http.room (w c) = None ->
      Streaming.walk fuel rd c = Some l ->
      exists pre rest,
        rd = pre ++ rest /\
        http.body (w (conn_of l)) = http.body (w c) ++ pre).
Proof.
  split.
  - intros input h rd Hlen Hp.
    apply parseBlockHeader_some in Hp.
    destruct Hp as (b0 & b1 & b2 & b3 & -> & ->).
    destruct rd; [|simpl in Hlen; lia].
    destruct (header_of_bytes_range b0 b1 b2 b3) as [Ht Hl].
    repeat split; try lia. apply Marshal_header_of_bytes.
  - intros fuel rd c l Hroom Hwalk.
    destruct (walk_passthrough _ _ _ _ Hroom Hwalk) as (pre & rest & H1 & H2 & _).
    exists pre, rest. split; assumption.
Qed.

Lemma parsed_header_marshals_to_input_witness :
  (0 <= Type_ tags_header <= 127 /\ 0 <= Length tags_header <= 16777215 /\
   Marshal tags_header = [x84; x01; x11; x70]) /\
  match Streaming.walk 3 (padding_last ++ frames0) (start (http.fresh None)) with
  | Some l =>
      exists pre rest,
        padding_last ++ frames0 = pre ++ rest /\
        http.body (w (conn_of l)) = http.body (w (start (http.fresh None))) ++ pre
  | None => False
  end.
Proof.
  destruct parsed_header_marshals_to_input as [H1 H2]. split.
  - apply (H1 [x84; x01; x11; x70] tags_header []); reflexivity.
  - pose proof (H2 3%nat (padding_last ++ frames0) (start (http.fresh None))) as H.
    destruct (Streaming.walk 3 (padding_last ++ frames0) (start (http.fresh None)))
      as [l|] eqn:E.
    + apply (H l); reflexivity.
    + vm_compute in E. discriminate E.
Defined.

(** C7 (as amended): the walk does not look at the type of a block.
    Whatever header parses (type 127 included) is written back, followed
    by as many bytes as it declares; then the walk goes on, or stops at a
    last block.  When the stream holds fewer bytes than the header
    declares, the header and the bytes that are left have been written,
    the copy fails, and the handler logs that the track cannot be decoded
    and returns. *)
Theorem walk_forwards_every_type (fuel : nat) (rd rest : io.Reader)
    (h : BlockHeader) (c : Conn) :
  http.room (w c) = None ->
  parseBlockHeader rd = Some (h, rest) ->
  let n := Z.to_nat (Length h) in
  ((n <= List.length rest)%nat ->
   exists c1,
     Streaming.walk (S fuel) rd c =
       (if LastBlock h then Some (Streaming.Broke c1 (skipn n rest))
        else Streaming.walk fuel (skipn n rest) c1) /\
     http.body (w c1) = http.body (w c) ++ firstn 4 rd ++ firstn n rest /\
     log c1 = log c ++ [block_line h]) /\
  ((List.length rest < n)%nat ->
   exists c1,
     Streaming.walk (S fuel) rd c = Some (Streaming.Returned c1) /\
     http.body (w c1) = http.body (w c) ++ firstn 4 rd ++ rest /\
     log c1 = log c ++ [block_line h; decode_line]).
Proof.
  intros Hroom Hp n.
  cbn [Streaming.walk]. rewrite Hp.
  apply parseBlockHeader_some in Hp. destruct Hp as (b0 & b1 & b2 & b3 & -> & ->).
  rewrite Marshal_header_of_bytes. cbn [firstn w Printf].
  destruct (Write_unlimited [b0; b1; b2; b3] (w c) Hroom) as (w1 & -> & Hb1 & Hr1).
  cbn [w with_w].
  destruct (CopyN_unlimited w1 rest (Length (header_of_bytes b0 b1 b2 b3)) Hr1)
    as (w2 & -> & Hb2 & Hr2).
  fold n in Hb2 |- *. cbn [w with_w].
  destruct (header_of_bytes_range b0 b1 b2 b3) as [_ Hlen].
  assert (Hbody : http.body w2 = http.body (w c) ++ [b0; b1; b2; b3] ++ firstn n rest).
  { rewrite Hb2, Hb1, <- app_assoc. reflexivity. }
  split; intros Hn.
  - assert (E : (Z.of_nat (List.length (firstn n rest))
                 <? Length (header_of_bytes b0 b1 b2 b3)) = false).
    { apply Z.ltb_ge. rewrite length_firstn. subst n. lia. }
    rewrite E. eexists. split; [reflexivity|].
    split; [exact Hbody | reflexivity].
  - assert (E : (Z.of_nat (List.length (firstn n rest))
                 <? Length (header_of_bytes b0 b1 b2 b3)) = true).
    { apply Z.ltb_lt. rewrite length_firstn. subst n. lia. }
    rewrite E. eexists. split; [reflexivity|].
    split.
    + cbn [w Printf with_w]. rewrite Hbody, firstn_all2 by lia. reflexivity.
    + cbn [log Printf with_w]. rewrite <- app_assoc. reflexivity.
Qed.

Lemma walk_forwards_every_type_witness :
  (exists c1,
      Streaming.walk 1 (reserved_last ++ frames0) (start (http.fresh None)) =
        Some (Streaming.Broke c1 frames0) /\
      http.body (w c1) = reserved_last /\
      log c1 = [block_line reserved_header]) /\
  (exists c1,
      Streaming.walk 1 short_block (start (http.fresh None)) =
        Some (Streaming.Returned c1) /\
      http.body (w c1) = short_block /\
      log c1 = [block_line short_header; decode_line]).
Proof.
  split.
  - destruct (walk_forwards_every_type 0 (reserved_last ++ frames0) (xaa :: frames0)
                reserved_header (start (http.fresh None)) eq_refl eq_refl) as [H _].
    apply H. vm_compute. lia.
  - destruct (walk_forwards_every_type 0 short_block [xaa]
                short_header (start (http.fresh None)) eq_refl eq_refl) as [_ H].
    apply H. vm_compute. lia.
Defined.

(** ** The handler from the signature on *)

Lemma magic_bytes : magic = ["f"; "L"; "a"; "C"]%byte.
Proof. reflexivity. Qed.

Lemma bytes_Equal_eq (a b : list byte) : bytes_Equal a b = true <-> a = b.
Proof.
  revert b. induction a as [|x a IH]; intros [|y b]; simpl; split; intros H;
    try discriminate; try reflexivity.
  - apply andb_true_iff in H. destruct H as [Hxy Hab].
    apply Byte.byte_dec_bl in Hxy. apply IH in Hab. congruence.
  - injection H as -> ->. apply andb_true_iff. split.
    + apply Byte.byte_dec_lb. reflexivity.
    + apply IH. reflexivity.
Qed.

Lemma ReadFull_magic (rest : io.Reader) :
  io.ReadFull (magic ++ rest) 4 = (Some magic, rest).
Proof. reflexivity. Qed.

(** A stream that does not start with the signature: one error reply,
    one log line, nothing else. *)
Lemma stream_bad_signature (rd : io.Reader) (c : Conn) :
  firstn 4 rd <> magic ->
  exists a,
    Streaming.stream rd c =
    Printf (with_w c (http.Error (w c) "Internal Server Error"
                        http.StatusInternalServerError))
      "Unable to decode track: %v\n" [a].
Proof.
  intros Hbad. unfold Streaming.stream, io.ReadFull.
  destruct (4 <=? List.length rd)%nat.
  - destruct (bytes_Equal (firstn 4 rd) magic) eqn:E.
    + apply bytes_Equal_eq in E. contradiction.
    + cbn. eexists. reflexivity.
  - cbn. eexists. reflexivity.
Qed.

(** With the signature in place and a client that takes everything, the
    response body grows by the signature, the 38 bytes after it, and a
    prefix of what follows them. *)
Lemma stream_passthrough (rest : io.Reader) (c : Conn) :
  http.room (w c) = None ->
  exists pre post,
    skipn 38 rest = pre ++ post /\
    http.body (w (Streaming.stream (magic ++ rest) c)) =
      http.body (w c) ++ magic ++ firstn 38 rest ++ pre.
Proof.
  intros Hroom. unfold Streaming.stream.
  rewrite ReadFull_magic.
  change (negb (bytes_Equal magic magic)) with false. cbv iota.
  set (c1 := with_w c (http.Header_Add "Content-Type" "audio/flac" (w c))).
  assert (Hr1 : http.room (w c1) = None) by exact Hroom.
  destruct (Write_unlimited magic (w c1) Hr1) as (w1 & -> & Hb1 & Hr1').
  cbn [w with_w].
  destruct (CopyN_unlimited w1 rest 38 Hr1') as (w2 & -> & Hb2 & Hr2).
  change (Z.to_nat 38) with 38%nat in *.
  cbn [w with_w].
  assert (Hbody : http.body w2 = http.body (w c) ++ magic ++ firstn 38 rest).
  { rewrite Hb2, Hb1, <- app_assoc. reflexivity. }
  destruct (_ <? 38).
  { exists [], (skipn 38 rest). cbn [w Printf with_w].
    rewrite Hbody, app_nil_r. split; reflexivity. }
  set (c2 := with_w _ w2).
  destruct (walk_total (S (List.length (skipn 38 rest))) (skipn 38 rest) c2 (Nat.lt_succ_diag_r _))
    as (l & Hl).
  rewrite Hl.
  destruct (walk_passthrough _ _ c2 _ Hr2 Hl) as (pre & post & Hsplit & Hb & Hr & Hrest).
  unfold c2 in Hb. cbn [w with_w] in Hb.
  destruct l as [c3|c3 rd3]; cbn [conn_of] in *.
  - exists pre, post. split; [assumption|].
    rewrite Hb, Hbody, <- !app_assoc. reflexivity.
  - subst rd3.
    destruct (Copy_unlimited (w c3) post Hr) as (w4 & -> & Hb4 & Hr4).
    exists (pre ++ post), []. split; [rewrite app_nil_r; assumption|].
    cbn [w with_w]. rewrite Hb4, Hb, Hbody, <- !app_assoc. reflexivity.
Qed.

Lemma trackHandler_streams (env : Env) (w0 : http.ResponseWriter) (r : http.Request)
    (id : string) (data : TrackJSON) (urls : list string) (content : list byte) :
  http.Method r = "GET"%string ->
  FindStringSubmatch (http.Path r) = [http.Path r; id] ->
  loadTrackInfo env id = (inl data, urls) ->
  Get env (mossTrackURL env data) = ok content ->
  Streaming.trackHandler env w0 r =
  Streaming.stream content
    (called (called (start w0) urls) [mossTrackURL env data]).
Proof.
  intros Hm Hp Hl Hg. unfold Streaming.trackHandler.
  rewrite Hm, Hp. cbn [String.eqb Ascii.eqb Bool.eqb negb List.length Nat.ltb Nat.leb nth].
  rewrite Hl, Hg. reflexivity.
Qed.

(** *** Once a status has gone out it stays *)

Lemma WriteHeader_keeps (code : Z) (w0 : http.ResponseWriter) (x : Z * list (string * string)) :
  http.wrote w0 = Some x -> http.WriteHeader code w0 = w0.
Proof. intros H. unfold http.WriteHeader. rewrite H. reflexivity. Qed.

Lemma Write_keeps (p : list byte) (w0 : http.ResponseWriter) (x : Z * list (string * string)) :
  http.wrote w0 = Some x -> http.wrote (fst (http.Write p w0)) = Some x.
Proof.
  intros H. unfold http.Write. rewrite (WriteHeader_keeps 200 w0 x H).
  destruct (http.room w0); [destruct (_ <=? _)%nat|]; exact H.
Qed.

Lemma Copy_keeps (w0 : http.ResponseWriter) (src : io.Reader) (x : Z * list (string * string)) :
  http.wrote w0 = Some x -> http.wrote (fst (fst (io.Copy w0 src))) = Some x.
Proof.
  intros H. unfold io.Copy. destruct src as [|b src]; [exact H|].
  pose proof (Write_keeps (b :: src) w0 x H) as Hw.
  destruct (http.Write (b :: src) w0). exact Hw.
Qed.

Lemma CopyN_keeps (w0 : http.ResponseWriter) (src : io.Reader) (n : Z)
    (x : Z * list (string * string)) :
  http.wrote w0 = Some x -> http.wrote (fst (fst (io.CopyN w0 src n))) = Some x.
Proof.
  intros H. unfold io.CopyN.
  pose proof (Copy_keeps w0 (firstn (Z.to_nat n) src) x H) as Hc.
  destruct (io.Copy w0 _) as [[w1 rd1] e1]. exact Hc.
Qed.

Lemma Error_keeps (w0 : http.ResponseWriter) (msg : string) (code : Z)
    (x : Z * list (string * string)) :
  http.wrote w0 = Some x -> http.wrote (http.Error w0 msg code) = Some x.
Proof.
  intros H. unfold http.Error.
  apply Write_keeps. rewrite (WriteHeader_keeps code _ x); exact H.
Qed.

Lemma walk_keeps (fuel : nat) (x : Z * list (string * string)) : forall rd c l,
  http.wrote (w c) = Some x ->
  Streaming.walk fuel rd c = Some l ->
  http.wrote (w (conn_of l)) = Some x.
Proof.
  induction fuel as [|fuel IH]; intros rd c l H Hwalk; [discriminate|].
  cbn [Streaming.walk] in Hwalk.
  destruct (parseBlockHeader rd) as [[h rd1]|]; [|injection Hwalk as <-; exact H].
  cbn [w Printf] in Hwalk.
  pose proof (Write_keeps (Marshal h) (w c) x H) as H1.
  destruct (http.Write (Marshal h) (w c)) as [w1 e1]. cbn [fst] in H1.
  destruct e1; [injection Hwalk as <-; exact H1|].
  cbn [w with_w] in Hwalk.
  pose proof (CopyN_keeps w1 rd1 (Length h) x H1) as H2.
  destruct (io.CopyN w1 rd1 (Length h)) as [[w2 rd2] e2]. cbn [fst] in H2.
  destruct e2; [injection Hwalk as <-; exact H2|].
  destruct (LastBlock h); [injection Hwalk as <-; exact H2|].
  exact (IH _ _ _ (H2 : http.wrote (w (with_w _ w2)) = Some x) Hwalk).
Qed.

(** Whatever the stream holds, the signature check and what follows it
    leave a status that has gone out as it is. *)
Lemma stream_keeps (rd : io.Reader) (c : Conn) (x : Z * list (string * string)) :
  http.wrote (w c) = Some x ->
  http.wrote (w (Streaming.stream rd c)) = Some x.
Proof.
  intros H. unfold Streaming.stream.
  destruct (io.ReadFull rd 4) as [fileMagic rd1].
  match goal with |- context [if ?b then _ else _] => destruct b end.
  { cbn [w Printf with_w]. apply Error_keeps. exact H. }
  cbn [w with_w].
  pose proof (Write_keeps magic (http.Header_Add "Content-Type" "audio/flac" (w c)) x H) as H1.
  destruct (http.Write magic _) as [w1 e1]. cbn [fst] in H1.
  assert (Hrest : forall c1 : Conn,
            http.wrote (w c1) = Some x ->
            http.wrote
              (w (let '(w2, rd2, err) := io.CopyN (w c1) rd1 38 in
                  let c2 := with_w c1 w2 in
                  if err
                  then Printf c2 "Unable to decode track: %v\n" [AnError]
                  else
                    match Streaming.walk (S (List.length rd2)) rd2 c2 with
                    | None => c2
                    | Some (Streaming.Returned c3) => c3
                    | Some (Streaming.Broke c3 rd3) =>
                        let '(w3, _, err3) := io.Copy (w c3) rd3 in
                        let c4 := with_w c3 w3 in
                        if err3
                        then Printf c4 "Unable to decode track: %v\n" [AnError]
                        else c4
                    end)) = Some x).
  { intros c1 Hc1.
    pose proof (CopyN_keeps (w c1) rd1 38 x Hc1) as H2.
    destruct (io.CopyN (w c1) rd1 38) as [[w2 rd2] e2]. cbn [fst] in H2.
    cbv zeta. destruct e2; [exact H2|].
    pose proof (walk_keeps (S (List.length rd2)) x rd2 (with_w c1 w2)) as Hw.
    destruct (Streaming.walk _ rd2 _) as [l|]; [|exact H2].
    specialize (Hw l H2 eq_refl).
    destruct l as [c3|c3 rd3]; cbn [conn_of] in Hw; [exact Hw|].
    pose proof (Copy_keeps (w c3) rd3 x Hw) as H4.
    destruct (io.Copy (w c3) rd3) as [[w4 rd4] e4]. cbn [fst] in H4.
    destruct e4; exact H4. }
  destruct e1; apply Hrest; exact H1.
Qed.

(** ** The STREAMINFO block *)

(** C8: the 38 bytes that follow the signature (the STREAMINFO header and
    its 34-byte body) reach a client that takes every write as they are,
    right after the signature, whatever they hold. *)
Theorem streaminfo_copied_unchanged (env : Env) (w0 : http.ResponseWriter)
    (r : http.Request) (id : string) (data : TrackJSON) (urls : list string)
    (fixed rest : list byte) :
  http.room w0 = None ->
  http.Method r = "GET"%string ->
  FindStringSubmatch (http.Path r) = [http.Path r; id] ->
  loadTrackInfo env id = (inl data, urls) ->
  Get env (mossTrackURL env data) = ok (magic ++ fixed ++ rest) ->
  List.length fixed = 38%nat ->
  exists tail,
    http.body (w (Streaming.trackHandler env w0 r)) =
    http.body w0 ++ magic ++ fixed ++ tail.
Proof.
  intros Hroom Hm Hp Hl Hg Hlen.
  rewrite (trackHandler_streams _ _ _ _ _ _ _ Hm Hp Hl Hg).
  destruct (stream_passthrough (fixed ++ rest)
              (called (called (start w0) urls) [mossTrackURL env data]) Hroom)
    as (pre & post & _ & Hb).
  exists pre. rewrite Hb. cbn [w called start].
  rewrite <- Hlen, firstn_app, firstn_all, Nat.sub_diag, firstn_O, app_nil_r.
  reflexivity.
Qed.

Lemma streaminfo_copied_unchanged_witness :
  exists tail,
    http.body (w (Streaming.trackHandler (env0 found (ok flac0)) (http.fresh None) req0)) =
    http.body (http.fresh None) ++ magic ++ streaminfo0 ++ tail.
Proof.
  apply (streaminfo_copied_unchanged (env0 found (ok flac0)) (http.fresh None) req0
           uuid0 track0
           ["http://impala/api/v1/login"; "http://impala/api/v1/tracks/" ++ uuid0]%string
           streaminfo0 (padding_last ++ frames0)); reflexivity.
Defined.

(** ** Replies to a bad signature *)

(** C6 (as amended): when the object does not start with the four
    signature bytes, or is shorter than four bytes, the handler replies
    with status 500, logs that the track cannot be decoded, and writes the
    plain-text line of [http.Error] as the whole body: no byte of the
    object is written. *)
Theorem bad_signature_reply (env : Env) (r : http.Request) (id : string)
    (data : TrackJSON) (urls : list string) (content : list byte) :
  http.Method r = "GET"%string ->
  FindStringSubmatch (http.Path r) = [http.Path r; id] ->
  loadTrackInfo env id = (inl data, urls) ->
  Get env (mossTrackURL env data) = ok content ->
  (List.length content < 4)%nat \/ firstn 4 content <> magic ->
  let c := Streaming.trackHandler env (http.fresh None) r in
  status (w c) = Some http.StatusInternalServerError /\
  http.body (w c) = error_line "Internal Server Error" /\
  exists a, log c = [{| format := "Unable to decode track: %v\n"; args := [a] |}].
Proof.
  intros Hm Hp Hl Hg Hbad c. subst c.
  rewrite (trackHandler_streams _ _ _ _ _ _ _ Hm Hp Hl Hg).
  assert (Hne : firstn 4 content <> magic).
  { destruct Hbad as [Hshort|Hne]; [|assumption].
    intros E. apply (f_equal (@List.length byte)) in E.
    rewrite length_firstn in E. change (List.length magic) with 4%nat in E. lia. }
  destruct (stream_bad_signature content
              (called (called (start (http.fresh None)) urls) [mossTrackURL env data]) Hne)
    as (a & ->).
  repeat split. exists a. reflexivity.
Qed.

Lemma bad_signature_reply_witness :
  let c := Streaming.trackHandler (env0 found (ok ogg)) (http.fresh None) req0 in
  status (w c) = Some http.StatusInternalServerError /\
  http.body (w c) = error_line "Internal Server Error" /\
  exists a, log c = [{| format := "Unable to decode track: %v\n"; args := [a] |}].
Proof.
  apply (bad_signature_reply (env0 found (ok ogg)) req0 uuid0 track0
           ["http://impala/api/v1/login"; "http://impala/api/v1/tracks/" ++ uuid0]%string
           ogg); try reflexivity.
  right. vm_compute. discriminate.
Defined.

(** C6, as stated, fails: the reply to a stream that starts with [OggS]
    has a body of 22 bytes, not an empty one. *)
Lemma bad_signature_body_not_empty :
  let c := Streaming.trackHandler (env0 found (ok ogg)) (http.fresh None) req0 in
  List.length (http.body (w c)) = 22%nat /\ http.body (w c) <> [].
Proof. split; [reflexivity | vm_compute; discriminate]. Qed.

(** ** A block of the reserved type *)

(** C7, as stated, fails: a last block of type 127 goes out like any
    other, the whole object is served with status 200, and the only log
    line is the one that prints the block. *)
Lemma reserved_type_is_forwarded :
  let c := Streaming.trackHandler (env0 found (ok flac127)) (http.fresh None) req0 in
  status (w c) = Some 200 /\
  http.body (w c) = flac127 /\
  log c = [block_line reserved_header].
Proof. vm_compute. repeat split. Qed.

(** ** A fetch that failed *)

(** After a reply of the object store with another status than 200, the
    handler writes its error reply and goes on to the signature check. *)
Lemma trackHandler_goes_on (env : Env) (w0 : http.ResponseWriter) (r : http.Request)
    (id : string) (data : TrackJSON) (urls : list string) (resp : http.Response) :
  http.Method r = "GET"%string ->
  FindStringSubmatch (http.Path r) = [http.Path r; id] ->
  loadTrackInfo env id = (inl data, urls) ->
  Get env (mossTrackURL env data) = http.Received resp ->
  http.StatusCode resp <> 200 ->
  Streaming.trackHandler env w0 r =
  Streaming.stream (http.Body resp)
    (Printf
       (with_w (called (called (start w0) urls) [mossTrackURL env data])
          (http.Error w0 "Internal Server Error" http.StatusInternalServerError))
       "Unable to access track: %v\n" [NoError]).
Proof.
  intros Hm Hp Hl Hg Hs. unfold Streaming.trackHandler.
  rewrite Hm, Hp. cbn [String.eqb Ascii.eqb Bool.eqb negb List.length Nat.ltb Nat.leb nth].
  rewrite Hl, Hg.
  apply Z.eqb_neq in Hs. rewrite Hs. reflexivity.
Qed.

(** C5: in the streaming revision a failed fetch is not the end of the
    request.  After a transport error the handler writes its error reply
    and then panics on the nil response.  After a reply with another
    status than 200 whose body starts with the signature, the handler
    writes its error reply and then, after it, the signature and what
    follows it in the body. *)
Theorem failed_fetch_is_not_the_end (env : Env) (r : http.Request) (id : string)
    (data : TrackJSON) (urls : list string) :
  http.Method r = "GET"%string ->
  FindStringSubmatch (http.Path r) = [http.Path r; id] ->
  loadTrackInfo env id = (inl data, urls) ->
  let c := Streaming.trackHandler env (http.fresh None) r in
  (Get env (mossTrackURL env data) = http.TransportError ->
   status (w c) = Some http.StatusInternalServerError /\
   http.body (w c) = error_line "Internal Server Error" /\
   panicked c = true) /\
  (forall (code : Z) (content : list byte),
   Get env (mossTrackURL env data) =
     http.Received {| http.StatusCode := code; http.Body := magic ++ content |} ->
   code <> 200 ->
   status (w c) = Some http.StatusInternalServerError /\
   exists tail,
     http.body (w c) =
     error_line "Internal Server Error" ++ magic ++ firstn 38 content ++ tail).
Proof.
  intros Hm Hp Hl c. subst c. split.
  - intros Hg. unfold Streaming.trackHandler.
    rewrite Hm, Hp.
    cbn [String.eqb Ascii.eqb Bool.eqb negb List.length Nat.ltb Nat.leb nth].
    rewrite Hl, Hg. repeat split.
  - intros code content Hg Hcode.
    rewrite (trackHandler_goes_on _ _ _ _ _ _ _ Hm Hp Hl Hg Hcode).
    cbn [http.Body].
    set (c := Printf _ _ _).
    split.
    + unfold status.
      rewrite (stream_keeps _ c
                 (http.StatusInternalServerError,
                  [("X-Content-Type-Options", "nosniff");
                   ("Content-Type", "text/plain; charset=utf-8")]%string));
        reflexivity.
    + assert (Hroom : http.room (w c) = None) by reflexivity.
      destruct (stream_passthrough content c Hroom) as (pre & post & _ & Hb).
      exists pre. rewrite Hb. reflexivity.
Qed.

Lemma failed_fetch_is_not_the_end_witness :
  (let c := Streaming.trackHandler (env0 found http.TransportError) (http.fresh None) req0 in
   status (w c) = Some http.StatusInternalServerError /\
   http.body (w c) = error_line "Internal Server Error" /\
   panicked c = true) /\
  (let c := Streaming.trackHandler (env0 found (unavailable flac0)) (http.fresh None) req0 in
   status (w c) = Some http.StatusInternalServerError /\
   exists tail,
     http.body (w c) =
     error_line "Internal Server Error" ++ magic
       ++ firstn 38 (streaminfo0 ++ padding_last ++ frames0) ++ tail).
Proof.
  split.
  - destruct (failed_fetch_is_not_the_end (env0 found http.TransportError) req0 uuid0 track0
                ["http://impala/api/v1/login"; "http://impala/api/v1/tracks/" ++ uuid0]%string
                eq_refl eq_refl eq_refl) as [H _].
    apply H. reflexivity.
  - destruct (failed_fetch_is_not_the_end (env0 found (unavailable flac0)) req0 uuid0 track0
                ["http://impala/api/v1/login"; "http://impala/api/v1/tracks/" ++ uuid0]%string
                eq_refl eq_refl eq_refl) as [_ H].
    apply (H 503 (streaminfo0 ++ padding_last ++ frames0)); [reflexivity | discriminate].
Defined.

(** On the sample file behind a 503 reply, the body of the response is the
    error line followed by the whole file. *)
Example file_after_the_error_line :
  let c := Streaming.trackHandler (env0 found (unavailable flac0)) (http.fresh None) req0 in
  status (w c) = Some http.StatusInternalServerError /\
  http.body (w c) = error_line "Internal Server Error" ++ flac0 /\
  panicked c = false.
Proof. vm_compute. repeat split. Qed.

(** ** Files served as they are *)

(** One well-formed block through one turn of the loop. *)
Lemma walk_block (fuel : nat) (last : bool) (b : Block) (rest : io.Reader) (c : Conn) :
  http.room (w c) = None ->
  well_formed b ->
  exists c1,
    Streaming.walk (S fuel) (encode_block last b ++ rest) c =
      (if last then Some (Streaming.Broke c1 rest) else Streaming.walk fuel rest c1) /\
    http.body (w c1) = http.body (w c) ++ encode_block last b /\
    http.room (w c1) = None.
Proof.
  intros Hroom [Ht Hl].
  assert (Hp : parseBlockHeader (encode_block last b ++ rest) =
               Some (block_header last b, block_body b ++ rest)).
  { unfold encode_block. rewrite <- app_assoc. apply parse_Marshal; cbn; lia. }
  cbn [Streaming.walk]. rewrite Hp. cbn [w Printf].
  destruct (Write_unlimited (Marshal (block_header last b)) (w c) Hroom)
    as (w1 & -> & Hb1 & Hr1).
  cbn [w with_w].
  destruct (CopyN_unlimited w1 (block_body b ++ rest) (Length (block_header last b)) Hr1)
    as (w2 & -> & Hb2 & Hr2).
  cbn [Length block_header LastBlock w with_w] in *.
  rewrite Nat2Z.id in *.
  rewrite firstn_app, firstn_all, Nat.sub_diag, firstn_O, app_nil_r in *.
  rewrite skipn_app, skipn_all, Nat.sub_diag, skipn_O.
  rewrite Z.ltb_irrefl. cbn [app].
  eexists. split; [reflexivity|]. cbn [w with_w]. split; [|assumption].
  rewrite Hb2, Hb1. unfold encode_block. rewrite <- app_assoc. reflexivity.
Qed.

(** A run of well-formed blocks is copied as it is, and the loop breaks
    after the last one. *)
Lemma walk_blocks (bs : list Block) : forall (fuel : nat) (rest : io.Reader) (c : Conn),
  bs <> [] ->
  Forall well_formed bs ->
  http.room (w c) = None ->
  (List.length bs <= fuel)%nat ->
  exists c1,
    Streaming.walk fuel (encode_blocks bs ++ rest) c = Some (Streaming.Broke c1 rest) /\
    http.body (w c1) = http.body (w c) ++ encode_blocks bs /\
    http.room (w c1) = None.
Proof.
  induction bs as [|b bs IH]; intros fuel rest c Hne Hwf Hroom Hfuel; [contradiction|].
  inversion Hwf as [|? ? Hb Hbs]; subst.
  cbn [List.length] in Hfuel.
  destruct fuel as [|fuel]; [lia|].
  destruct bs as [|b' bs].
  - cbn [encode_blocks].
    destruct (walk_block fuel true b rest c Hroom Hb) as (c1 & Hw & Hbody & Hr).
    exists c1. auto.
  - change (encode_blocks (b :: b' :: bs))
      with (encode_block false b ++ encode_blocks (b' :: bs)).
    rewrite <- app_assoc.
    destruct (walk_block fuel false b (encode_blocks (b' :: bs) ++ rest) c Hroom Hb)
      as (c1 & Hw & Hbody & Hr).
    rewrite Hw.
    destruct (IH fuel rest c1) as (c2 & Hw2 & Hbody2 & Hr2);
      [discriminate | assumption | assumption | cbn [List.length] in Hfuel |- *; lia |].
    exists c2. split; [assumption|]. split; [|assumption].
    rewrite Hbody2, Hbody, <- app_assoc. reflexivity.
Qed.

Lemma encode_blocks_length (bs : list Block) :
  (List.length bs <= S (List.length (encode_blocks bs)))%nat.
Proof.
  induction bs as [|b bs IH]; [cbn [List.length]; lia|].
  destruct bs as [|b' bs]; [cbn [List.length]; lia|].
  change (encode_blocks (b :: b' :: bs))
    with (encode_block false b ++ encode_blocks (b' :: bs)).
  unfold encode_block. rewrite !length_app.
  change (List.length (Marshal (block_header false b))) with 4%nat.
  cbn [List.length] in IH |- *. lia.
Qed.

(** C2: a file made of the signature, the 38 bytes of STREAMINFO, one or
    more well-formed blocks (the last one flagged) and the frames comes
    out exactly as it went in, whether or not one of the blocks is a tag
    block: the handler adds no block and changes no flag. *)
Theorem well_formed_file_is_served_unchanged (env : Env) (r : http.Request)
    (id : string) (data : TrackJSON) (urls : list string)
    (fixed : list byte) (bs : list Block) (frames : list byte) :
  http.Method r = "GET"%string ->
  FindStringSubmatch (http.Path r) = [http.Path r; id] ->
  loadTrackInfo env id = (inl data, urls) ->
  Get env (mossTrackURL env data) = ok (magic ++ fixed ++ encode_blocks bs ++ frames) ->
  List.length fixed = 38%nat ->
  bs <> [] ->
  Forall well_formed bs ->
  http.body (w (Streaming.trackHandler env (http.fresh None) r)) =
  magic ++ fixed ++ encode_blocks bs ++ frames.
Proof.
  intros Hm Hp Hl Hg Hlen Hne Hwf.
  rewrite (trackHandler_streams _ _ _ _ _ _ _ Hm Hp Hl Hg).
  set (c := called _ _).
  assert (Hroom : http.room (w c) = None) by reflexivity.
  unfold Streaming.stream. rewrite ReadFull_magic.
  change (negb (bytes_Equal magic magic)) with false. cbv iota.
  set (c1 := with_w c _).
  destruct (Write_unlimited magic (w c1) Hroom) as (w1 & -> & Hb1 & Hr1).
  cbn [w with_w].
  destruct (CopyN_unlimited w1 (fixed ++ encode_blocks bs ++ frames) 38 Hr1)
    as (w2 & -> & Hb2 & Hr2).
  change (Z.to_nat 38) with 38%nat in *. cbn [w with_w].
  rewrite <- Hlen in *.
  rewrite firstn_app, firstn_all, Nat.sub_diag, firstn_O, app_nil_r in *.
  rewrite skipn_app, skipn_all, Nat.sub_diag, skipn_O. cbn [app].
  rewrite Hlen, Z.ltb_irrefl.
  set (c2 := with_w _ w2).
  destruct (walk_blocks bs (S (List.length (encode_blocks bs ++ frames))) frames c2
              Hne Hwf Hr2) as (c3 & -> & Hb3 & Hr3).
  { rewrite length_app. pose proof (encode_blocks_length bs). lia. }
  destruct (Copy_unlimited (w c3) frames Hr3) as (w4 & -> & Hb4 & Hr4).
  cbn [w with_w]. rewrite Hb4, Hb3. unfold c2. cbn [w with_w].
  rewrite Hb2, Hb1. cbn. rewrite <- !app_assoc. reflexivity.
Qed.

Lemma well_formed_file_is_served_unchanged_witness :
  http.body (w (Streaming.trackHandler (env0 found (ok flac0)) (http.fresh None) req0)) =
  magic ++ streaminfo0 ++ encode_blocks [padding2] ++ frames0.
Proof.
  apply (well_formed_file_is_served_unchanged (env0 found (ok flac0)) req0 uuid0 track0
           ["http://impala/api/v1/login"; "http://impala/api/v1/tracks/" ++ uuid0]%string
           streaminfo0 [padding2] frames0); try reflexivity.
  - discriminate.
  - repeat constructor; cbn; lia.
Defined.

(** On the sample file (signature, STREAMINFO, a last PADDING block and a
    frame) the blocks of the response are those of the file: STREAMINFO
    (type 0) and PADDING (type 1), the PADDING block still flagged as the
    last one, and no block of type 4. *)
Example sample_file_blocks :
  let c := Streaming.trackHandler (env0 found (ok flac0)) (http.fresh None) req0 in
  http.body (w c) = flac0 /\
  map flag_and_type (metadata_blocks 8 (skipn 4 flac0)) = [(false, 0); (true, 1)] /\
  map flag_and_type (metadata_blocks 8 (skipn 4 (http.body (w c)))) = [(false, 0); (true, 1)].
Proof. vm_compute. repeat split. Qed.

(** ** The text handed to [metaflac] *)

Lemma string_app_assoc (a b c : string) :
  ((a ++ b) ++ c = a ++ (b ++ c))%string.
Proof. induction a as [|x a IH]; simpl; [reflexivity | rewrite IH; reflexivity]. Qed.

Lemma lines_closed_not_nil (p : string) :
  metaflac.lines (p ++ String "010" EmptyString) <> [].
Proof.
  destruct p as [|c p]; simpl; [discriminate|].
  destruct (Ascii.eqb c "010"); [discriminate|].
  destruct (metaflac.lines _); discriminate.
Qed.

(** A newline closes what comes before it. *)
Lemma lines_app (p q : string) :
  metaflac.lines (p ++ String "010" q) =
  metaflac.lines (p ++ String "010" EmptyString) ++ metaflac.lines q.
Proof.
  induction p as [|c p IH]; simpl; [reflexivity|].
  destruct (Ascii.eqb c "010"); [rewrite IH; reflexivity|].
  rewrite IH.
  pose proof (lines_closed_not_nil p) as Hne.
  destruct (metaflac.lines (p ++ String "010" EmptyString)); [contradiction|].
  reflexivity.
Qed.

Lemma fields_app (l1 l2 : list string) :
  metaflac.fields (l1 ++ l2) =
  match metaflac.fields l1, metaflac.fields l2 with
  | Some a, Some b => Some (a ++ b)
  | _, _ => None
  end.
Proof.
  induction l1 as [|l l1 IH]; simpl.
  - destruct (metaflac.fields l2); reflexivity.
  - destruct (metaflac.field l); [|reflexivity].
    rewrite IH.
    destruct (metaflac.fields l1); [|reflexivity].
    destruct (metaflac.fields l2); reflexivity.
Qed.

(** Whatever the catalog says, the last two entries [metaflac] is asked
    to import are the fixed ones. *)
Lemma stdin_ends_with_placeholders (track : TrackJSON) (fs : list metaflac.Tag) :
  metaflac.fields (metaflac.lines (Tagging.metaflac_stdin track)) = Some fs ->
  exists fs', fs = fs' ++ placeholders.
Proof.
  assert (E : Tagging.metaflac_stdin track =
              (("ARTIST=" ++ Artist track ++ String "010" "TITLE=" ++ Title track)
                 ++ String "010" ("ALBUM=dmca test" ++ String "010" "LABEL=dmca test"
                                    ++ String "010" EmptyString))%string).
  { unfold Tagging.metaflac_stdin. rewrite !string_app_assoc. reflexivity. }
  rewrite E, lines_app, fields_app.
  destruct (metaflac.fields (metaflac.lines (_ ++ String "010" EmptyString)))
    as [fs'|]; [|discriminate].
  cbn. intros [= <-]. exists fs'. reflexivity.
Qed.

Lemma literal_app (p1 p2 : string) : forall s,
  literal (p1 ++ p2) s = andThen (literal p1 s) (literal p2).
Proof.
  induction p1 as [|a p1 IH]; intros s; simpl; [reflexivity|].
  destruct s as [|b s]; [reflexivity|].
  destruct (Ascii.eqb a b); [apply IH | reflexivity].
Qed.

Lemma run_app (l1 l2 : list string) (stdin : string) : forall tags,
  metaflac.run (l1 ++ l2) stdin tags =
  andThen (metaflac.run l1 stdin tags) (metaflac.run l2 stdin).
Proof.
  induction l1 as [|a l1 IH]; intros tags; cbn [metaflac.run app andThen];
    [reflexivity|].
  destruct (literal "--remove-tag=" a); [apply IH|].
  destruct (String.eqb a "--import-tags-from=-").
  - destruct (metaflac.import_tags stdin tags); cbn [andThen]; [apply IH | reflexivity].
  - destruct (literal "--" a); [reflexivity | apply IH].
Qed.

(** An argument that does not start with [--] is the file name. *)
Lemma run_file (name stdin : string) (tags : list metaflac.Tag) :
  literal "--" name = None -> metaflac.run [name] stdin tags = Some tags.
Proof.
  intros Hname. cbn [metaflac.run].
  change "--remove-tag="%string with ("--" ++ "remove-tag=")%string.
  rewrite literal_app, Hname. cbn [andThen].
  destruct (String.eqb_spec name "--import-tags-from=-") as [->|]; [discriminate Hname|].
  reflexivity.
Qed.

(** C1: once [metaflac] has run with the arguments and the input the
    handler gives it, the tag entries of the file are those it had, less
    the ones named ARTIST, TITLE, ALBUM or LABEL, then the entries imported
    for the artist and the title, then [ALBUM=dmca test] and [LABEL=dmca
    test], whatever the catalog returned for the track: the album and the
    label do not come from the catalog. *)
Theorem album_and_label_are_placeholders (track : TrackJSON) (name : string)
    (tags out : list metaflac.Tag) :
  literal "--" name = None ->
  metaflac.run (Tagging.metaflac_args name) (Tagging.metaflac_stdin track) tags = Some out ->
  exists imported,
    out =
    metaflac.remove_tag "LABEL"
      (metaflac.remove_tag "ALBUM"
         (metaflac.remove_tag "TITLE" (metaflac.remove_tag "ARTIST" tags)))
      ++ imported ++ placeholders.
Proof.
  intros Hname.
  change (Tagging.metaflac_args name)
    with (["--remove-tag=ARTIST"; "--remove-tag=TITLE"; "--remove-tag=ALBUM";
           "--remove-tag=LABEL"; "--import-tags-from=-"]%string ++ [name]).
  rewrite run_app.
  remember (metaflac.run [name] (Tagging.metaflac_stdin track)) as file eqn:Hfile.
  cbn -[Tagging.metaflac_stdin metaflac.remove_tag metaflac.import_tags andThen].
  unfold metaflac.import_tags.
  destruct (metaflac.fields _) as [fs|] eqn:Hfs; [|discriminate].
  destruct (stdin_ends_with_placeholders _ _ Hfs) as (fs' & ->).
  cbn [option_map andThen]. rewrite Hfile, run_file by assumption.
  intros [= <-]. exists fs'. reflexivity.
Qed.

(** On a file with tags of its own: the album and the label of the file
    are replaced by the fixed text; the title and the artist are the
    catalog's; the other entries stay, in their order. *)
Lemma album_and_label_are_placeholders_witness :
  metaflac.run (Tagging.metaflac_args "/tmp/dmca042") (Tagging.metaflac_stdin track0)
    old_tags =
  Some [("GENRE", "Rock"); ("DATE", "1999"); ("ARTIST", "Catalog Artist");
        ("TITLE", "Catalog Title"); ("ALBUM", "dmca test");
        ("LABEL", "dmca test")]%string /\
  exists imported,
    [("GENRE", "Rock"); ("DATE", "1999"); ("ARTIST", "Catalog Artist");
     ("TITLE", "Catalog Title"); ("ALBUM", "dmca test");
     ("LABEL", "dmca test")]%string =
    metaflac.remove_tag "LABEL"
      (metaflac.remove_tag "ALBUM"
         (metaflac.remove_tag "TITLE" (metaflac.remove_tag "ARTIST" old_tags)))
      ++ imported ++ placeholders.
Proof.
  split; [reflexivity|].
  apply (album_and_label_are_placeholders track0 "/tmp/dmca042" old_tags); reflexivity.
Defined.

(** ** The route on sample paths *)

Example route_takes_the_canonical_path :
  FindStringSubmatch (http.Path req0) = [http.Path req0; uuid0].
Proof. vm_compute. reflexivity. Qed.

(** The dot of the pattern is not escaped: any character may stand before
    [flac]. *)
Example route_takes_any_character_for_the_dot :
  FindStringSubmatch "/track/01234567-89ab-cdef-0123-456789abcdef/flac" =
  ["/track/01234567-89ab-cdef-0123-456789abcdef/flac"; uuid0]%string.
Proof. vm_compute. reflexivity. Qed.

Example route_refuses_other_paths :
  FindStringSubmatch (http.Path stray0) = [] /\
  FindStringSubmatch "/track/01234567-89AB-cdef-0123-456789abcdef.flac" = [] /\
  FindStringSubmatch "/track/01234567-89ab-cdef-0123-456789abcdef.flac/" = [] /\
  FindStringSubmatch "/track/01234567-89ab-cdef-0123-456789abcdef.ogg" = [].
Proof. vm_compute. repeat split. Qed.

(** ** The revision of [main.go]: requests that are turned away *)

(** A 404 from the catalog is a [TrackNotFoundError]. *)
Lemma loadTrackInfo_not_found (env : Env) (id : string) (lresp resp : http.Response) :
  NewRequest_ok env (loginURL env) = true ->
  Get env (loginURL env) = http.Received lresp ->
  Get env (trackURL env id) = http.Received resp ->
  http.StatusCode resp = 404 ->
  loadTrackInfo env id = (inr (TrackNotFoundError id), [loginURL env; trackURL env id]).
Proof.
  intros Hn Hl Hg Hs. unfold loadTrackInfo.
  rewrite Hn, Hl, Hg, Hs. reflexivity.
Qed.

(** C9 (as amended): a request whose method is not GET gets status 405,
    and a GET whose path does not match the pattern gets status 404, both
    before any upstream request.  A GET for a well-formed identifier that
    the catalog answers with 404 gets status 404 after the two catalog
    requests and nothing else: no request to the object store, no
    temporary file.  In each case the body is the one line that
    [http.Error] prints, and holds no byte of a track. *)
Theorem requests_turned_away (env : Env) (host : Tagging.Host) (r : http.Request) :
  let s := Tagging.trackHandler env host (http.fresh None) r in
  let c := Tagging.conn s in
  (http.Method r <> "GET"%string ->
   status (w c) = Some http.StatusMethodNotAllowed /\
   http.body (w c) = error_line "Method Not Allowed" /\
   calls c = []) /\
  (http.Method r = "GET"%string ->
   FindStringSubmatch (http.Path r) = [] ->
   status (w c) = Some http.StatusNotFound /\
   http.body (w c) = error_line "404 page not found" /\
   calls c = []) /\
  (forall (id : string) (lresp resp : http.Response),
   http.Method r = "GET"%string ->
   FindStringSubmatch (http.Path r) = [http.Path r; id] ->
   NewRequest_ok env (loginURL env) = true ->
   Get env (loginURL env) = http.Received lresp ->
   Get env (trackURL env id) = http.Received resp ->
   http.StatusCode resp = 404 ->
   status (w c) = Some http.StatusNotFound /\
   http.body (w c) = error_line "404 page not found" /\
   calls c = [loginURL env; trackURL env id] /\
   Tagging.tmpf s = None /\
   Tagging.disk_peak s = 0%nat).
Proof.
  intros s c. subst c s. unfold Tagging.trackHandler.
  split; [|split].
  - intros Hm. apply String.eqb_neq in Hm. rewrite Hm. repeat split.
  - intros Hm Hp. rewrite Hm, Hp. repeat split.
  - intros id lresp resp Hm Hp Hn Hl Hg Hs. rewrite Hm, Hp.
    cbn [String.eqb Ascii.eqb Bool.eqb negb List.length Nat.ltb Nat.leb nth].
    rewrite (loadTrackInfo_not_found env id lresp resp Hn Hl Hg Hs).
    repeat split.
Qed.

Lemma requests_turned_away_witness :
  (let c := Tagging.conn (Tagging.trackHandler (env0 missing (ok flac0)) host0
                            (http.fresh None) post0) in
   status (w c) = Some http.StatusMethodNotAllowed /\
   http.body (w c) = error_line "Method Not Allowed" /\
   calls c = []) /\
  (let c := Tagging.conn (Tagging.trackHandler (env0 missing (ok flac0)) host0
                            (http.fresh None) stray0) in
   status (w c) = Some http.StatusNotFound /\
   http.body (w c) = error_line "404 page not found" /\
   calls c = []) /\
  (let s := Tagging.trackHandler (env0 missing (ok flac0)) host0 (http.fresh None) req0 in
   let c := Tagging.conn s in
   status (w c) = Some http.StatusNotFound /\
   http.body (w c) = error_line "404 page not found" /\
   calls c = ["http://impala/api/v1/login";
              "http://impala/api/v1/tracks/" ++ uuid0]%string /\
   Tagging.tmpf s = None /\
   Tagging.disk_peak s = 0%nat).
Proof.
  split; [|split].
  - apply (requests_turned_away (env0 missing (ok flac0)) host0 post0).
    vm_compute. discriminate.
  - apply (requests_turned_away (env0 missing (ok flac0)) host0 stray0); reflexivity.
  - apply (requests_turned_away (env0 missing (ok flac0)) host0 req0) with
      (id := uuid0) (lresp := {| http.StatusCode := 200; http.Body := [] |})
      (resp := {| http.StatusCode := 404; http.Body := [] |}); reflexivity.
Defined.

(** C9, as stated, fails: the reply to a track the catalog does not know
    has a body of 19 bytes, not an empty one. *)
Lemma not_found_body_not_empty :
  let s := Tagging.trackHandler (env0 missing (ok flac0)) host0 (http.fresh None) req0 in
  status (w (Tagging.conn s)) = Some http.StatusNotFound /\
  List.length (http.body (w (Tagging.conn s))) = 19%nat /\
  http.body (w (Tagging.conn s)) <> [].
Proof. vm_compute. repeat split. discriminate. Qed.

(** ** The revision of [main.go]: the temporary file *)

(** When every step works, the object is stored whole and the rewritten
    file is served. *)
Lemma stored_when_every_step_succeeds (env : Env) (host : Tagging.Host)
    (w0 : http.ResponseWriter) (r : http.Request) (id : string)
    (track : TrackJSON) (urls : list string) (content content' : list byte) :
  http.Method r = "GET"%string ->
  FindStringSubmatch (http.Path r) = [http.Path r; id] ->
  loadTrackInfo env id = (inl track, urls) ->
  every_step_succeeds env host track content content' ->
  stored_then_served host w0 r (Tagging.trackHandler env host w0 r) content content'.
Proof.
  intros Hm Hp Hl (Hg & Ht & Hcopy & Hc & Hrun & Ho).
  unfold stored_then_served, Tagging.trackHandler.
  rewrite Hm, Hp.
  cbn [String.eqb Ascii.eqb Bool.eqb negb List.length Nat.ltb Nat.leb nth].
  rewrite Hl, Hg. unfold ok.
  cbn [http.StatusCode http.Body Z.eqb Pos.eqb negb].
  rewrite Ht. cbn [negb]. rewrite Hcopy, Hc. cbn [negb]. rewrite Hrun, Ho.
  cbn -[Nat.max http.ServeContent].
  split; [lia|]. split; [lia | reflexivity].
Qed.

(** C4 (as amended): for every request that gets as far as the object
    store, the handler either answers with its error reply and sends
    nothing of the object, or it has first copied the entire object into
    the temporary file, then run [metaflac] on that file, and only then
    handed the file as [metaflac] left it to [http.ServeContent]: what is
    sent is made from the complete copy on disk, and the temporary file has
    held the whole object.  The second is the case whenever every step
    works.  In every case the temporary file is gone when the handler
    returns. *)
Theorem object_is_stored_then_served (env : Env) (host : Tagging.Host)
    (w0 : http.ResponseWriter) (r : http.Request) (id : string)
    (track : TrackJSON) (urls : list string) :
  http.Method r = "GET"%string ->
  FindStringSubmatch (http.Path r) = [http.Path r; id] ->
  loadTrackInfo env id = (inl track, urls) ->
  let s := Tagging.trackHandler env host w0 r in
  Tagging.tmpf s = None /\
  (w (Tagging.conn s) =
     http.Error w0 "Internal Server Error" http.StatusInternalServerError \/
   exists content content' : list byte,
     every_step_succeeds env host track content content' /\
     stored_then_served host w0 r s content content') /\
  (forall content content' : list byte,
     every_step_succeeds env host track content content' ->
     stored_then_served host w0 r s content content').
Proof.
  intros Hm Hp Hl s.
  assert (Hpos : forall content content' : list byte,
             every_step_succeeds env host track content content' ->
             stored_then_served host w0 r s content content')
    by (intros content content'; apply (stored_when_every_step_succeeds _ _ _ _ id _ urls);
        assumption).
  assert (Hrest : Tagging.tmpf s = None /\
                  (w (Tagging.conn s) =
                     http.Error w0 "Internal Server Error" http.StatusInternalServerError \/
                   exists content content' : list byte,
                     every_step_succeeds env host track content content')).
  { subst s. clear Hpos. unfold every_step_succeeds, Tagging.trackHandler.
    rewrite Hm, Hp.
    cbn [String.eqb Ascii.eqb Bool.eqb negb List.length Nat.ltb Nat.leb nth].
    rewrite Hl.
    destruct (Get env (mossTrackURL env track)) as [|resp|resp] eqn:Hg;
      try (split; [reflexivity | left; reflexivity]).
    destruct (Z.eqb_spec (http.StatusCode resp) 200) as [E200|N200]; cbn [negb];
      [|split; [reflexivity | left; reflexivity]].
    destruct (Tagging.TempFile_ok host) eqn:Ht; cbn [negb];
      [|split; [reflexivity | left; reflexivity]].
    destruct (io.CopyToFile _ _) as [content err] eqn:Hcopy.
    destruct err; [split; [reflexivity | left; reflexivity]|].
    destruct (Tagging.Close_ok host) eqn:Hc; cbn [negb];
      [|split; [reflexivity | left; reflexivity]].
    destruct (Tagging.Run host _ _ content) as [content'|] eqn:Hrun;
      [|split; [reflexivity | left; reflexivity]].
    destruct (Tagging.Open_ok host) eqn:Ho; cbn [negb];
      [|split; [reflexivity | left; reflexivity]].
    split; [reflexivity|]. right.
    assert (Hcontent : content = http.Body resp).
    { unfold io.CopyToFile in Hcopy.
      destruct (Tagging.disk_room host); [destruct (_ <=? _)%nat|]; congruence. }
    destruct resp as [code b]. cbn [http.StatusCode http.Body] in *. subst code content.
    exists b, content'.
    do 5 (split; [first [assumption | reflexivity]|]). reflexivity. }
  destruct Hrest as [Hgone [Herr|(content & content' & Hsteps)]].
  - split; [exact Hgone|]. split; [left; exact Herr | exact Hpos].
  - split; [exact Hgone|]. split; [|exact Hpos].
    right. exists content, content'. split; [exact Hsteps | exact (Hpos _ _ Hsteps)].
Qed.

Lemma object_is_stored_then_served_witness :
  let env := env0 found (ok flac0) in
  let s := Tagging.trackHandler env host0 (http.fresh None) req0 in
  every_step_succeeds env host0 track0 flac0 flac0 /\
  Tagging.tmpf s = None /\
  stored_then_served host0 (http.fresh None) req0 s flac0 flac0.
Proof.
  intros env s.
  assert (Hsteps : every_step_succeeds env host0 track0 flac0 flac0)
    by (repeat split).
  destruct (object_is_stored_then_served env host0 (http.fresh None)
              req0 uuid0 track0
              ["http://impala/api/v1/login"; "http://impala/api/v1/tracks/" ++ uuid0]%string
              eq_refl eq_refl eq_refl) as (Hgone & _ & Hpos).
  split; [exact Hsteps|]. split; [exact Hgone | exact (Hpos _ _ Hsteps)].
Defined.

(** C4, as stated, fails: while this object of 54 bytes is served, the
    temporary file holds all 54 of them. *)
Lemma whole_object_on_disk :
  let s := Tagging.trackHandler (env0 found (ok flac0)) host0 (http.fresh None) req0 in
  Tagging.disk_peak s = List.length flac0 /\
  ~ (Tagging.disk_peak s < List.length flac0)%nat.
Proof. split; [reflexivity | vm_compute; lia]. Qed.

(** * Part 4: further properties *)

(** ** The codec at its edges *)

(** X1: [parseBlockHeader] succeeds exactly when four bytes are there, and
    then it has read those four and no more: the reader is left at the
    fifth byte, although the [LimitedReader] would let 32 through. *)
Theorem parseBlockHeader_reads_four_bytes (rd : io.Reader) :
  ((List.length rd < 4)%nat -> parseBlockHeader rd = None) /\
  ((4 <= List.length rd)%nat ->
   exists h, parseBlockHeader rd = Some (h, skipn 4 rd)) /\
  (forall h rd', parseBlockHeader rd = Some (h, rd') ->
                 (4 <= List.length rd)%nat /\ rd' = skipn 4 rd).
Proof.
  split; [apply parseBlockHeader_short|]. split.
  - intros Hlen.
    destruct rd as [|b0 [|b1 [|b2 [|b3 rest]]]]; try (simpl in Hlen; lia).
    rewrite parseBlockHeader_bytes. eexists. reflexivity.
  - intros h rd' Hp. apply parseBlockHeader_some in Hp.
    destruct Hp as (b0 & b1 & b2 & b3 & -> & _).
    split; [simpl; lia | reflexivity].
Qed.

Lemma parseBlockHeader_reads_four_bytes_witness :
  parseBlockHeader [x84; x01] = None /\
  (exists h, parseBlockHeader (padding_last ++ frames0) =
             Some (h, skipn 4 (padding_last ++ frames0))) /\
  ((4 <= List.length (padding_last ++ frames0))%nat /\
   [x00; x00] ++ frames0 = skipn 4 (padding_last ++ frames0)).
Proof.
  destruct (parseBlockHeader_reads_four_bytes [x84; x01]) as (H1 & _ & _).
  destruct (parseBlockHeader_reads_four_bytes (padding_last ++ frames0)) as (_ & H2 & H3).
  split; [apply H1; simpl; lia|]. split; [apply H2; simpl; lia|].
  apply (H3 {| LastBlock := true; Type_ := 1; Length := 2 |}). reflexivity.
Defined.

Lemma lxor_128_byte (b : byte) :
  Z.lxor (byte_to_Z b) 128 =
  if byte_to_Z b <? 128 then byte_to_Z b + 128 else byte_to_Z b - 128.
Proof. destruct b; reflexivity. Qed.

Lemma lxor_128 (t : Z) :
  0 <= t < 256 -> Z.lxor t 128 = if t <? 128 then t + 128 else t - 128.
Proof.
  intros Ht. pose proof (lxor_128_byte (byte_of_Z t)) as H.
  rewrite byte_to_of_Z in H by assumption. exact H.
Qed.

Lemma first_byte_fields (l : bool) (t : Z) :
  0 <= t < 256 ->
  let p0 := if l then Z.lxor t 128 else t in
  0 <= p0 < 256 /\
  (p0 / 128 =? 1) = xorb l (128 <=? t) /\
  p0 mod 128 = t mod 128.
Proof.
  intros Ht p0. subst p0.
  destruct l; [rewrite lxor_128 by lia|];
    destruct (Z.ltb_spec t 128); destruct (Z.leb_spec 128 t); try lia;
    cbn [xorb]; (split; [lia|]); (split; [apply Z.eqb_eq || apply Z.eqb_neq|]);
    Z.to_euclidean_division_equations; lia.
Qed.

Lemma low_24_bits (n : Z) :
  65536 * (n / 65536 mod 256) + 256 * (n / 256 mod 256) + n mod 256 = n mod 16777216.
Proof. Z.to_euclidean_division_equations; lia. Qed.

(** X2: whatever header it is given, [Marshal] keeps the low seven bits of
    the type and the low 24 bits of the length, and its [^= 0x80] flips the
    top bit of the first byte: parsing its output gives back the header
    with the length reduced modulo 2^24 (a negative or too long length
    does not survive) and, for a type of 128 or more, the type less 128
    with the flag inverted. *)
Theorem Marshal_keeps_the_low_bits (h : BlockHeader) (rest : io.Reader) :
  0 <= Type_ h < 256 ->
  parseBlockHeader (Marshal h ++ rest) = Some (masked h, rest).
Proof.
  intros Ht. unfold Marshal. cbn [app].
  rewrite parseBlockHeader_bytes. unfold header_of_bytes, masked.
  assert (E : to_uint8 (Type_ h) = Type_ h) by (apply Z.mod_small; lia).
  cbv zeta. rewrite !E.
  destruct (first_byte_fields (LastBlock h) (Type_ h) Ht) as (Hp0 & Hflag & Htype).
  assert (H1 : 0 <= to_uint8 (Z.shiftr (Length h) 16) < 256)
    by (apply Z.mod_pos_bound; lia).
  assert (H2 : 0 <= to_uint8 (Z.shiftr (Length h) 8) < 256)
    by (apply Z.mod_pos_bound; lia).
  assert (H3 : 0 <= to_uint8 (Length h) < 256) by (apply Z.mod_pos_bound; lia).
  rewrite <- flag_bit, <- type_bits, length_bits by (rewrite byte_to_of_Z; assumption).
  rewrite !byte_to_of_Z by assumption.
  rewrite Hflag, Htype.
  unfold to_uint8. rewrite !Z.shiftr_div_pow2 by lia.
  change (2 ^ 16) with 65536. change (2 ^ 8) with 256.
  rewrite low_24_bits. reflexivity.
Qed.

Lemma Marshal_keeps_the_low_bits_witness :
  parseBlockHeader (Marshal {| LastBlock := true; Type_ := 132; Length := -1 |} ++ [x2a]) =
  Some ({| LastBlock := false; Type_ := 4; Length := 16777215 |}, [x2a]).
Proof.
  apply (Marshal_keeps_the_low_bits {| LastBlock := true; Type_ := 132; Length := -1 |} [x2a]).
  cbn. lia.
Defined.

(** ** The block walk: how long and how far *)

Lemma walk_more_fuel (fuel : nat) : forall rd c l,
  Streaming.walk fuel rd c = Some l -> Streaming.walk (S fuel) rd c = Some l.
Proof.
  induction fuel as [|fuel IH]; intros rd c l Hwalk; [discriminate|].
  cbn [Streaming.walk] in Hwalk |- *.
  destruct (parseBlockHeader rd) as [[h rd1]|]; [|exact Hwalk].
  destruct (http.Write (Marshal h) _) as [w1 e1].
  destruct e1; [exact Hwalk|].
  destruct (io.CopyN _ rd1 (Length h)) as [[w2 rd2] e2].
  destruct e2; [exact Hwalk|].
  destruct (LastBlock h); [exact Hwalk|].
  apply IH. exact Hwalk.
Qed.

Lemma walk_enough_fuel (fuel fuel' : nat) (rd : io.Reader) (c : Conn) (l : Streaming.Loop) :
  (fuel <= fuel')%nat ->
  Streaming.walk fuel rd c = Some l -> Streaming.walk fuel' rd c = Some l.
Proof.
  intros Hle Hwalk. induction Hle as [|fuel' Hle IH]; [exact Hwalk|].
  apply walk_more_fuel. exact IH.
Qed.

Lemma walk_within (fuel : nat) : forall rd c,
  (List.length rd < 4 * fuel)%nat -> exists l, Streaming.walk fuel rd c = Some l.
Proof.
  induction fuel as [|fuel IH]; intros rd c Hfuel; [lia|].
  cbn [Streaming.walk].
  destruct (parseBlockHeader rd) as [[h rd1]|] eqn:Hp; [|eexists; reflexivity].
  apply parseBlockHeader_some in Hp. destruct Hp as (b0 & b1 & b2 & b3 & -> & _).
  destruct (http.Write (Marshal h) _) as [w1 err1].
  destruct err1; [eexists; reflexivity|].
  unfold io.CopyN.
  destruct (io.Copy _ _) as [[w2 rd2] err2]. cbn [w with_w].
  destruct (err2 || _); [eexists; reflexivity|].
  destruct (LastBlock h); [eexists; reflexivity|].
  apply IH.
  pose proof (length_skipn (Z.to_nat (Length h)) rd1). cbn [List.length] in Hfuel. lia.
Qed.

(** X3: the block loop ends on every body.  Every turn reads the four
    bytes of a header, so on a body of [n] bytes the loop is over within
    [n / 4 + 1] turns, whatever the client does; more turns allowed change
    nothing. *)
Theorem walk_ends_within_a_turn_per_header (rd : io.Reader) (c : Conn) :
  exists l,
    Streaming.walk (S (List.length rd / 4)) rd c = Some l /\
    forall fuel, (List.length rd / 4 < fuel)%nat -> Streaming.walk fuel rd c = Some l.
Proof.
  destruct (walk_within (S (List.length rd / 4)) rd c) as (l & Hl).
  { pose proof (Nat.div_mod_eq (List.length rd) 4).
    pose proof (Nat.mod_upper_bound (List.length rd) 4). lia. }
  exists l. split; [exact Hl|].
  intros fuel Hfuel. apply (walk_enough_fuel (S (List.length rd / 4))); [lia | exact Hl].
Qed.

Lemma walk_ends_within_a_turn_per_header_witness :
  exists l,
    Streaming.walk 3 (padding_last ++ frames0) (start (http.fresh None)) = Some l /\
    Streaming.walk 13 (padding_last ++ frames0) (start (http.fresh None)) = Some l.
Proof.
  destruct (walk_ends_within_a_turn_per_header (padding_last ++ frames0)
              (start (http.fresh None))) as (l & H3 & Hmore).
  exists l. split; [exact H3|]. apply Hmore. vm_compute. lia.
Defined.

(** With a client that takes everything: what the loop has written is what
    it has read, and when it returns without a [break], fewer than four
    bytes of its input are left unwritten. *)
Lemma walk_leaves_little (fuel : nat) : forall rd c l,
  http.room (w c) = None ->
  Streaming.walk fuel rd c = Some l ->
  exists pre rest,
    rd = pre ++ rest /\
    http.body (w (conn_of l)) = http.body (w c) ++ pre /\
    http.room (w (conn_of l)) = None /\
    match l with
    | Streaming.Broke _ rd' => rd' = rest
    | Streaming.Returned _ => (List.length rest < 4)%nat
    end.
Proof.
  induction fuel as [|fuel IH]; intros rd c l Hroom Hwalk; [discriminate|].
  cbn [Streaming.walk] in Hwalk.
  destruct (parseBlockHeader rd) as [[h rd1]|] eqn:Hp.
  2:{ injection Hwalk as <-. exists [], rd. cbn [conn_of w Printf app].
      rewrite app_nil_r. repeat split; try assumption.
      destruct (Nat.lt_ge_cases (List.length rd) 4) as [Hlt|Hge]; [exact Hlt|].
      destruct rd as [|b0 [|b1 [|b2 [|b3 rest]]]]; try (simpl in Hge; lia).
      rewrite parseBlockHeader_bytes in Hp. discriminate. }
  apply parseBlockHeader_some in Hp. destruct Hp as (b0 & b1 & b2 & b3 & -> & ->).
  rewrite Marshal_header_of_bytes in Hwalk.
  cbn [w Printf] in Hwalk.
  destruct (Write_unlimited [b0; b1; b2; b3] (w c) Hroom) as (w1 & Hw & Hb1 & Hr1).
  rewrite Hw in Hwalk. cbn [w with_w Printf] in Hwalk.
  set (n := Length (header_of_bytes b0 b1 b2 b3)) in *.
  destruct (CopyN_unlimited w1 rd1 n Hr1) as (w2 & Hc & Hb2 & Hr2).
  rewrite Hc in Hwalk. cbn [w with_w Printf] in Hwalk.
  assert (Hbody : http.body w2 =
                  http.body (w c) ++ [b0; b1; b2; b3] ++ firstn (Z.to_nat n) rd1).
  { rewrite Hb2, Hb1, <- app_assoc. reflexivity. }
  assert (Hsplit : b0 :: b1 :: b2 :: b3 :: rd1 =
            ([b0; b1; b2; b3] ++ firstn (Z.to_nat n) rd1) ++ skipn (Z.to_nat n) rd1).
  { rewrite <- app_assoc, firstn_skipn. reflexivity. }
  destruct (_ <? n) eqn:Eshort.
  { injection Hwalk as <-. do 2 eexists. cbn [conn_of w Printf with_w].
    repeat split; [exact Hsplit | exact Hbody | exact Hr2 |].
    apply Z.ltb_lt in Eshort. rewrite length_firstn in Eshort.
    rewrite skipn_all2 by lia. simpl. lia. }
  destruct (LastBlock _).
  { injection Hwalk as <-. do 2 eexists. cbn. eauto. }
  apply IH in Hwalk; [|assumption].
  destruct Hwalk as (pre & rest & Hrd & Hb & Hr & Hl).
  exists (([b0; b1; b2; b3] ++ firstn (Z.to_nat n) rd1) ++ pre), rest.
  cbn [w with_w Printf] in Hb.
  repeat split.
  - rewrite Hsplit, Hrd, <- !app_assoc. reflexivity.
  - rewrite Hb, Hbody, <- !app_assoc. reflexivity.
  - assumption.
  - assumption.
Qed.

Lemma stream_leaves_little (rest : io.Reader) (c : Conn) :
  http.room (w c) = None ->
  exists pre post,
    rest = pre ++ post /\
    (List.length post < 4)%nat /\
    http.body (w (Streaming.stream (magic ++ rest) c)) =
      http.body (w c) ++ magic ++ pre.
Proof.
  intros Hroom. unfold Streaming.stream.
  rewrite ReadFull_magic.
  change (negb (bytes_Equal magic magic)) with false. cbv iota.
  set (c1 := with_w c (http.Header_Add "Content-Type" "audio/flac" (w c))).
  assert (Hr1 : http.room (w c1) = None) by exact Hroom.
  destruct (Write_unlimited magic (w c1) Hr1) as (w1 & -> & Hb1 & Hr1').
  cbn [w with_w].
  destruct (CopyN_unlimited w1 rest 38 Hr1') as (w2 & -> & Hb2 & Hr2).
  change (Z.to_nat 38) with 38%nat in *.
  cbn [w with_w].
  assert (Hbody : http.body w2 = http.body (w c) ++ magic ++ firstn 38 rest).
  { rewrite Hb2, Hb1, <- app_assoc. reflexivity. }
  destruct (_ <? 38) eqn:Eshort.
  { exists rest, []. cbn [w Printf with_w].
    apply Z.ltb_lt in Eshort. rewrite length_firstn in Eshort.
    rewrite Hbody, firstn_all2, app_nil_r by lia.
    repeat split. simpl. lia. }
  set (c2 := with_w _ w2).
  destruct (walk_total (S (List.length (skipn 38 rest))) (skipn 38 rest) c2 (Nat.lt_succ_diag_r _))
    as (l & Hl).
  rewrite Hl.
  destruct (walk_leaves_little _ _ c2 _ Hr2 Hl) as (pre & post & Hsplit & Hb & Hr & Hrest).
  unfold c2 in Hb. cbn [w with_w] in Hb.
  destruct l as [c3|c3 rd3]; cbn [conn_of] in *.
  - exists (firstn 38 rest ++ pre), post. repeat split.
    + rewrite <- app_assoc, <- Hsplit, firstn_skipn. reflexivity.
    + exact Hrest.
    + rewrite Hb, Hbody, <- !app_assoc. reflexivity.
  - subst rd3.
    destruct (Copy_unlimited (w c3) post Hr) as (w4 & -> & Hb4 & Hr4).
    exists rest, []. repeat split.
    + rewrite app_nil_r. reflexivity.
    + simpl. lia.
    + cbn [w with_w]. rewrite Hb4, Hb, Hbody, <- !app_assoc, <- Hsplit, firstn_skipn.
      reflexivity.
Qed.

(** X4: every object that starts with the signature is served as it is,
    less at most three bytes at its very end (the ones that are left when
    the loop looks for one more header and finds fewer than four bytes).
    No byte is changed, added or moved. *)
Theorem streamed_object_loses_at_most_three_bytes (env : Env) (r : http.Request)
    (id : string) (data : TrackJSON) (urls : list string) (rest : list byte) :
  http.Method r = "GET"%string ->
  FindStringSubmatch (http.Path r) = [http.Path r; id] ->
  loadTrackInfo env id = (inl data, urls) ->
  Get env (mossTrackURL env data) = ok (magic ++ rest) ->
  exists lost,
    magic ++ rest =
      http.body (w (Streaming.trackHandler env (http.fresh None) r)) ++ lost /\
    (List.length lost <= 3)%nat.
Proof.
  intros Hm Hp Hl Hg.
  rewrite (trackHandler_streams _ _ _ _ _ _ _ Hm Hp Hl Hg).
  set (c := called _ _).
  destruct (stream_leaves_little rest c eq_refl) as (pre & post & Hsplit & Hlen & Hb).
  exists post. split; [|lia].
  rewrite Hb, Hsplit. cbn [c w called start http.fresh http.body app].
  rewrite <- app_assoc. reflexivity.
Qed.

Lemma streamed_object_loses_at_most_three_bytes_witness :
  exists lost,
    ragged =
      http.body (w (Streaming.trackHandler (env0 found (ok ragged)) (http.fresh None) req0))
        ++ lost /\
    (List.length lost <= 3)%nat.
Proof.
  apply (streamed_object_loses_at_most_three_bytes (env0 found (ok ragged)) req0 uuid0 track0
           ["http://impala/api/v1/login"; "http://impala/api/v1/tracks/" ++ uuid0]%string
           (streaminfo0 ++ [x00; x00; x00; x01; x07; xaa; xbb])); reflexivity.
Defined.

(** ** [loadTrackInfo] *)

(** X5: [loadTrackInfo] returns a track only when the login request got an
    answer, the track request was answered with status 200 and the body
    of that answer decoded to the track; it has then made exactly the
    login request and the track request, in that order. *)
Theorem loadTrackInfo_returns_decoded_track (env : Env) (id : string)
    (data : TrackJSON) (urls : list string) :
  loadTrackInfo env id = (inl data, urls) ->
  NewRequest_ok env (loginURL env) = true /\
  (exists lresp, Get env (loginURL env) = http.Received lresp) /\
  (exists resp,
      Get env (trackURL env id) = http.Received resp /\
      http.StatusCode resp = 200 /\
      Decode env (http.Body resp) = Some data) /\
  urls = [loginURL env; trackURL env id].
Proof.
  unfold loadTrackInfo.
  destruct (NewRequest_ok env (loginURL env)); [|discriminate].
  destruct (Get env (loginURL env)) as [|lresp|lresp]; try discriminate.
  destruct (Get env (trackURL env id)) as [|resp|resp]; try discriminate.
  destruct (Z.eqb_spec (http.StatusCode resp) 404); [discriminate|].
  destruct (Z.eqb_spec (http.StatusCode resp) 200) as [E|]; [|discriminate].
  destruct (Decode env (http.Body resp)) as [d|] eqn:Hd; [|discriminate].
  cbn [negb]. intros [= <- <-].
  repeat split; eauto.
Qed.

Lemma loadTrackInfo_returns_decoded_track_witness :
  NewRequest_ok (env0 found (ok flac0)) (loginURL (env0 found (ok flac0))) = true /\
  (exists lresp,
      Get (env0 found (ok flac0)) (loginURL (env0 found (ok flac0))) = http.Received lresp) /\
  (exists resp,
      Get (env0 found (ok flac0)) (trackURL (env0 found (ok flac0)) uuid0) =
        http.Received resp /\
      http.StatusCode resp = 200 /\
      Decode (env0 found (ok flac0)) (http.Body resp) = Some track0) /\
  ["http://impala/api/v1/login"; "http://impala/api/v1/tracks/" ++ uuid0]%string =
  [loginURL (env0 found (ok flac0)); trackURL (env0 found (ok flac0)) uuid0].
Proof.
  apply (loadTrackInfo_returns_decoded_track (env0 found (ok flac0)) uuid0 track0).
  reflexivity.
Defined.

(** X6: the two error types of [loadTrackInfo] stand for the status of the
    track request and for nothing else.  It returns [TrackNotFoundError]
    exactly when that request was answered with status 404, and
    [TrackFetchError] exactly when it was answered with a status other
    than 404 and 200; both carry the identifier that was asked for.  A
    failure to reach the catalog is neither. *)
Theorem loadTrackInfo_error_types (env : Env) (id x : string) :
  let answered (p : Z -> Prop) :=
    NewRequest_ok env (loginURL env) = true /\
    (exists lresp, Get env (loginURL env) = http.Received lresp) /\
    (exists resp, Get env (trackURL env id) = http.Received resp /\
                  p (http.StatusCode resp)) in
  (fst (loadTrackInfo env id) = inr (TrackNotFoundError x) <->
   x = id /\ answered (fun s => s = 404)) /\
  (fst (loadTrackInfo env id) = inr (TrackFetchError x) <->
   x = id /\ answered (fun s => s <> 404 /\ s <> 200)).
Proof.
  intros answered. subst answered. unfold loadTrackInfo.
  destruct (NewRequest_ok env (loginURL env)); cbn [negb fst].
  2:{ split; split; try discriminate; intros (_ & H & _); discriminate. }
  destruct (Get env (loginURL env)) as [|lresp|lresp]; cbn [fst];
    try (split; split; try discriminate; intros (_ & _ & (l & H) & _); discriminate).
  destruct (Get env (trackURL env id)) as [|resp|resp]; cbn [fst];
    try (split; split; try discriminate;
         intros (_ & _ & _ & (l & H & _)); discriminate).
  destruct (Z.eqb_spec (http.StatusCode resp) 404) as [E404|N404]; cbn [fst].
  { split; split.
    - intros [= <-]. repeat split; eauto.
    - intros (-> & _). reflexivity.
    - discriminate.
    - intros (_ & _ & _ & (r' & [= <-] & H & _)). contradiction. }
  destruct (Z.eqb_spec (http.StatusCode resp) 200) as [E200|N200]; cbn [negb fst].
  { split; split.
    - destruct (Decode env (http.Body resp)); discriminate.
    - intros (_ & _ & _ & (r' & [= <-] & H)). contradiction.
    - destruct (Decode env (http.Body resp)); discriminate.
    - intros (_ & _ & _ & (r' & [= <-] & _ & H)). contradiction. }
  split; split.
  - discriminate.
  - intros (_ & _ & _ & (r' & [= <-] & H)). contradiction.
  - intros [= <-]. repeat split; eauto.
  - intros (-> & _). reflexivity.
Qed.

Lemma loadTrackInfo_error_types_witness :
  fst (loadTrackInfo (env0 missing (ok flac0)) uuid0) = inr (TrackNotFoundError uuid0) /\
  fst (loadTrackInfo (env0 (unavailable []) (ok flac0)) uuid0) =
    inr (TrackFetchError uuid0).
Proof.
  split.
  - apply (loadTrackInfo_error_types (env0 missing (ok flac0)) uuid0 uuid0).
    split; [reflexivity|]. repeat split; eexists; try reflexivity.
    split; reflexivity.
  - apply (loadTrackInfo_error_types (env0 (unavailable []) (ok flac0)) uuid0 uuid0).
    split; [reflexivity|]. repeat split; try (eexists; reflexivity).
    eexists. split; [reflexivity|]. cbn. split; discriminate.
Defined.

(** X7: [loadTrackInfo] never looks at the answer to the login request:
    two catalogs that differ only in the status and the body of that
    answer give the same result.  (A login that is refused with 401 is
    followed by the track request like one that is accepted.) *)
Theorem loadTrackInfo_ignores_the_login_answer (env env' : Env) (id : string)
    (lresp lresp' : http.Response) :
  config env = config env' ->
  NewRequest_ok env (loginURL env) = NewRequest_ok env' (loginURL env') ->
  Get env (loginURL env) = http.Received lresp ->
  Get env' (loginURL env') = http.Received lresp' ->
  Get env (trackURL env id) = Get env' (trackURL env' id) ->
  (forall b, Decode env b = Decode env' b) ->
  loadTrackInfo env id = loadTrackInfo env' id.
Proof.
  intros Hc Hn Hl Hl' Hg Hd. unfold loadTrackInfo.
  rewrite Hn, Hl, Hl', Hg.
  assert (E1 : loginURL env = loginURL env') by (unfold loginURL; rewrite Hc; reflexivity).
  assert (E2 : trackURL env id = trackURL env' id)
    by (unfold trackURL; rewrite Hc; reflexivity).
  rewrite E1, E2.
  destruct (NewRequest_ok env' (loginURL env')); [|reflexivity].
  destruct (Get env' (trackURL env' id)) as [|resp|resp]; try reflexivity.
  rewrite Hd. reflexivity.
Qed.

Lemma loadTrackInfo_ignores_the_login_answer_witness :
  loadTrackInfo (env0 found (ok flac0)) uuid0 = loadTrackInfo (env401 found (ok flac0)) uuid0.
Proof.
  apply (loadTrackInfo_ignores_the_login_answer (env0 found (ok flac0))
           (env401 found (ok flac0)) uuid0
           {| http.StatusCode := 200; http.Body := [] |}
           {| http.StatusCode := 401; http.Body := bytes_of "Unauthorized" |});
    reflexivity.
Defined.

(** ** The status of a streamed reply *)

Lemma FindStringSubmatch_shape (path : string) :
  FindStringSubmatch path = [] \/
  FindStringSubmatch path = [path; substring 7 36 path].
Proof.
  unfold FindStringSubmatch.
  destruct (andThen _ _); [right | left]; reflexivity.
Qed.

Lemma Write_sets_status (p : list byte) (w0 : http.ResponseWriter) :
  http.wrote w0 = None ->
  http.wrote (fst (http.Write p w0)) = Some (200, http.header w0).
Proof.
  intros H. unfold http.Write, http.WriteHeader. rewrite H. cbn [http.room http.wrote].
  destruct (http.room w0); [destruct (_ <=? _)%nat|]; reflexivity.
Qed.

Lemma Error_sets_status (w0 : http.ResponseWriter) (msg : string) (code : Z) :
  http.wrote w0 = None -> status (http.Error w0 msg code) = Some code.
Proof.
  intros H. unfold status, http.Error.
  match goal with
  | |- context [http.Write ?p ?w1] =>
      assert (Hw : http.wrote w1 = Some (code, http.header w1))
  end.
  { unfold http.WriteHeader. cbn [http.Header_Set http.wrote]. rewrite H. reflexivity. }
  rewrite (Write_keeps _ _ _ Hw). reflexivity.
Qed.

(** What follows the signature leaves a status that has gone out as it
    is. *)
Lemma after_signature_keeps (rd1 : io.Reader) (c1 : Conn) (x : Z * list (string * string)) :
  http.wrote (w c1) = Some x ->
  http.wrote
    (w (let '(w2, rd2, err) := io.CopyN (w c1) rd1 38 in
        let c2 := with_w c1 w2 in
        if err
        then Printf c2 "Unable to decode track: %v\n" [AnError]
        else
          match Streaming.walk (S (List.length rd2)) rd2 c2 with
          | None => c2
          | Some (Streaming.Returned c3) => c3
          | Some (Streaming.Broke c3 rd3) =>
              let '(w3, _, err3) := io.Copy (w c3) rd3 in
              let c4 := with_w c3 w3 in
              if err3
              then Printf c4 "Unable to decode track: %v\n" [AnError]
              else c4
          end)) = Some x.
Proof.
  intros Hc1.
  pose proof (CopyN_keeps (w c1) rd1 38 x Hc1) as H2.
  destruct (io.CopyN (w c1) rd1 38) as [[w2 rd2] e2]. cbn [fst] in H2.
  cbv zeta. destruct e2; [exact H2|].
  pose proof (walk_keeps (S (List.length rd2)) x rd2 (with_w c1 w2)) as Hw.
  destruct (Streaming.walk _ rd2 _) as [l|]; [|exact H2].
  specialize (Hw l H2 eq_refl).
  destruct l as [c3|c3 rd3]; cbn [conn_of] in Hw; [exact Hw|].
  pose proof (Copy_keeps (w c3) rd3 x Hw) as H4.
  destruct (io.Copy (w c3) rd3) as [[w4 rd4] e4]. cbn [fst] in H4.
  destruct e4; exact H4.
Qed.

Lemma bad_signature_dec (rd : io.Reader) :
  {rest | rd = magic ++ rest} + {firstn 4 rd <> magic}.
Proof.
  destruct (list_eq_dec Byte.byte_eq_dec (firstn 4 rd) magic) as [E|N]; [left | right; exact N].
  exists (skipn 4 rd). rewrite <- E. symmetry. apply firstn_skipn.
Qed.

(** With no status sent yet, the signature decides between 200 and 500. *)
Lemma stream_status (rd : io.Reader) (c : Conn) :
  http.wrote (w c) = None ->
  (forall rest, rd = magic ++ rest -> status (w (Streaming.stream rd c)) = Some 200) /\
  (firstn 4 rd <> magic -> status (w (Streaming.stream rd c)) = Some 500).
Proof.
  intros Hfresh. split.
  - intros rest ->. unfold Streaming.stream. rewrite ReadFull_magic.
    change (negb (bytes_Equal magic magic)) with false. cbv iota.
    cbn [w with_w].
    pose proof (Write_sets_status magic
                  (http.Header_Add "Content-Type" "audio/flac" (w c)) Hfresh) as H1.
    destruct (http.Write magic _) as [w1 e1]. cbn [fst] in H1.
    unfold status.
    destruct e1;
      match goal with
      | |- context [io.CopyN (w ?c1) _ 38] =>
          rewrite (after_signature_keeps _ c1 _ (H1 : http.wrote (w c1) = Some _))
      end; reflexivity.
  - intros Hbad. destruct (stream_bad_signature rd c Hbad) as (a & ->).
    cbn [w Printf with_w]. apply Error_sets_status. exact Hfresh.
Qed.

Ltac error_status :=
  cbn [w with_w Printf panic called start]; unfold http.NotFound;
  rewrite ?Error_sets_status by reflexivity;
  unfold http.StatusNotFound, http.StatusMethodNotAllowed,
    http.StatusInternalServerError.

(** X8: the streaming handler answers 200 exactly when the request is a
    GET for a well-formed path, the catalog returned the track, and the
    object store answered 200 with a body that starts with the signature;
    nothing after the signature is looked at for the status.  In every
    other case the status is 404, 405 or 500. *)
Theorem streaming_status (env : Env) (room : option nat) (r : http.Request) :
  let c := Streaming.trackHandler env (http.fresh room) r in
  (status (w c) = Some 200 <->
   exists id data urls rest,
     http.Method r = "GET"%string /\
     FindStringSubmatch (http.Path r) = [http.Path r; id] /\
     loadTrackInfo env id = (inl data, urls) /\
     Get env (mossTrackURL env data) = ok (magic ++ rest)) /\
  (status (w c) = Some 200 \/ status (w c) = Some 404 \/
   status (w c) = Some 405 \/ status (w c) = Some 500).
Proof.
  intros c. subst c. unfold Streaming.trackHandler.
  destruct (String.eqb_spec (http.Method r) "GET") as [Hm|Hm]; cbn [negb].
  2:{ error_status. split; [split; [discriminate|]|auto].
      intros (? & ? & ? & ? & H & _). contradiction. }
  destruct (FindStringSubmatch_shape (http.Path r)) as [Hp|Hp]; rewrite Hp;
    cbn [List.length Nat.ltb Nat.leb nth].
  { error_status. split; [split; [discriminate|]|auto].
    intros (? & ? & ? & ? & _ & H & _). discriminate. }
  set (id := substring 7 36 (http.Path r)) in *.
  destruct (loadTrackInfo env id) as [[data|e] urls] eqn:Hl.
  2:{ split.
      - split; [destruct e; error_status; discriminate|].
        intros (? & ? & ? & ? & _ & [= <-] & H & _). rewrite Hl in H. discriminate.
      - destruct e; error_status; auto. }
  assert (Hfresh : forall u, http.wrote (w (called (called (start (http.fresh room)) urls) u))
                             = None) by reflexivity.
  destruct (Get env (mossTrackURL env data)) as [|resp|resp] eqn:Hg.
  - error_status. split.
    + split; [discriminate|].
      intros (? & d & ? & ? & _ & [= <-] & H & Hg'). rewrite Hl in H.
      injection H as <- <-. rewrite Hg in Hg'. discriminate.
    + auto.
  - assert (Hs : status (w (Streaming.stream []
                   (Printf (with_w (called (called (start (http.fresh room)) urls)
                                      [mossTrackURL env data])
                              (http.Error (http.fresh room) "Internal Server Error"
                                 http.StatusInternalServerError))
                      "Unable to access track: %v\n" [AnError]))) = Some 500).
    { pose proof (Error_sets_status (http.fresh room) "Internal Server Error"
                    http.StatusInternalServerError eq_refl) as He.
      unfold status in He |- *.
      destruct (http.wrote (http.Error _ _ _)) as [x|] eqn:Ex; [|discriminate].
      rewrite (stream_keeps _ _ x); [exact He | exact Ex]. }
    cbn [w Printf with_w called start] in Hs |- *.
    split.
    + split; [rewrite Hs; discriminate|].
      intros (? & d & ? & ? & _ & [= <-] & H & Hg'). rewrite Hl in H.
      injection H as <- <-. rewrite Hg in Hg'. discriminate.
    + auto.
  - destruct (Z.eqb_spec (http.StatusCode resp) 200) as [E200|N200]; cbn [negb].
    + destruct (bad_signature_dec (http.Body resp)) as [[rest Hrest]|Hbad].
      * destruct (stream_status (http.Body resp)
                    (called (called (start (http.fresh room)) urls) [mossTrackURL env data])
                    (Hfresh _)) as [H200 _].
        rewrite (H200 rest Hrest). split; [|auto].
        split; [|reflexivity]. intros _.
        exists id, data, urls, rest. repeat split; try assumption.
        destruct resp as [s b]. cbn [http.StatusCode http.Body] in E200, Hrest.
        subst s b. exact Hg.
      * destruct (stream_status (http.Body resp)
                    (called (called (start (http.fresh room)) urls) [mossTrackURL env data])
                    (Hfresh _)) as [_ H500].
        rewrite (H500 Hbad). split; [|auto].
        split; [discriminate|].
        intros (? & d & ? & rest & _ & [= <-] & H & Hg'). rewrite Hl in H.
        injection H as <- <-. rewrite Hg in Hg'. injection Hg' as ->.
        cbn [http.Body] in Hbad. exfalso. apply Hbad. reflexivity.
    + assert (Hs : status (w (Streaming.stream (http.Body resp)
                     (Printf (with_w (called (called (start (http.fresh room)) urls)
                                        [mossTrackURL env data])
                                (http.Error (http.fresh room) "Internal Server Error"
                                   http.StatusInternalServerError))
                        "Unable to access track: %v\n" [NoError]))) = Some 500).
      { pose proof (Error_sets_status (http.fresh room) "Internal Server Error"
                      http.StatusInternalServerError eq_refl) as He.
        unfold status in He |- *.
        destruct (http.wrote (http.Error _ _ _)) as [x|] eqn:Ex; [|discriminate].
        rewrite (stream_keeps _ _ x); [exact He | exact Ex]. }
      cbn [w Printf with_w called start] in Hs |- *.
      split.
      * split; [rewrite Hs; discriminate|].
        intros (? & d & ? & ? & _ & [= <-] & H & Hg'). rewrite Hl in H.
        injection H as <- <-. rewrite Hg in Hg'. injection Hg' as ->.
        cbn [http.StatusCode] in N200. contradiction.
      * auto.
Qed.

Lemma streaming_status_witness :
  status (w (Streaming.trackHandler (env0 found (ok flac0)) (http.fresh None) req0)) = Some 200.
Proof.
  apply (streaming_status (env0 found (ok flac0)) None req0).
  exists uuid0, track0,
    ["http://impala/api/v1/login"; "http://impala/api/v1/tracks/" ++ uuid0]%string,
    (streaminfo0 ++ padding_last ++ frames0).
  repeat split.
Defined.

(** ** A failed fetch without a FLAC body *)

(** X9: when the fetch from the object store failed but left a response
    (a status other than 200, or a redirect that was given up) and the
    body of that response does not start with the signature, the
    streaming handler writes its error reply twice: the status is 500, the
    body is the error line two times over, and both failures are
    logged. *)
Theorem failed_fetch_is_reported_twice (env : Env) (r : http.Request) (id : string)
    (data : TrackJSON) (urls : list string) (resp : http.Response) :
  http.Method r = "GET"%string ->
  FindStringSubmatch (http.Path r) = [http.Path r; id] ->
  loadTrackInfo env id = (inl data, urls) ->
  Get env (mossTrackURL env data) = http.RedirectError resp \/
  (Get env (mossTrackURL env data) = http.Received resp /\
   http.StatusCode resp <> 200 /\ firstn 4 (http.Body resp) <> magic) ->
  let c := Streaming.trackHandler env (http.fresh None) r in
  status (w c) = Some http.StatusInternalServerError /\
  http.body (w c) =
    error_line "Internal Server Error" ++ error_line "Internal Server Error" /\
  panicked c = false /\
  exists a a',
    log c = [access_line a; {| format := "Unable to decode track: %v\n"; args := [a'] |}].
Proof.
  intros Hm Hp Hl Hg c. subst c.
  destruct Hg as [Hg|(Hg & Hcode & Hbad)].
  - unfold Streaming.trackHandler. rewrite Hm, Hp.
    cbn [String.eqb Ascii.eqb Bool.eqb negb List.length Nat.ltb Nat.leb nth].
    rewrite Hl, Hg.
    match goal with
    | |- context [Streaming.stream [] ?c0] =>
        destruct (stream_bad_signature [] c0) as (a' & ->); [discriminate|]
    end.
    repeat split. exists AnError, a'. reflexivity.
  - rewrite (trackHandler_goes_on _ _ _ _ _ _ _ Hm Hp Hl Hg Hcode).
    match goal with
    | |- context [Streaming.stream _ ?c0] =>
        destruct (stream_bad_signature (http.Body resp) c0 Hbad) as (a' & ->)
    end.
    repeat split. exists NoError, a'. reflexivity.
Qed.

Lemma failed_fetch_is_reported_twice_witness :
  let c := Streaming.trackHandler (env0 found (unavailable ogg)) (http.fresh None) req0 in
  status (w c) = Some http.StatusInternalServerError /\
  http.body (w c) =
    error_line "Internal Server Error" ++ error_line "Internal Server Error" /\
  panicked c = false /\
  exists a a',
    log c = [access_line a; {| format := "Unable to decode track: %v\n"; args := [a'] |}].
Proof.
  apply (failed_fetch_is_reported_twice (env0 found (unavailable ogg)) req0 uuid0 track0
           ["http://impala/api/v1/login"; "http://impala/api/v1/tracks/" ++ uuid0]%string
           {| http.StatusCode := 503; http.Body := ogg |}); try reflexivity.
  right. split; [reflexivity|]. split; [discriminate | vm_compute; discriminate].
Defined.

(** ** The revision before the block walk *)

Lemma Copying_stream_body (rest : io.Reader) (c : Conn) :
  http.room (w c) = None ->
  http.body (w (Copying.stream (magic ++ rest) c)) = http.body (w c) ++ magic ++ rest.
Proof.
  intros Hroom. unfold Copying.stream. rewrite ReadFull_magic.
  change (negb (bytes_Equal magic magic)) with false. cbv iota.
  set (c1 := with_w c (http.Header_Add "Content-Type" "audio/flac" (w c))).
  destruct (Write_unlimited magic (w c1) Hroom) as (w1 & Hw & Hb1 & Hr1).
  rewrite Hw. cbn [fst w with_w].
  destruct (CopyN_unlimited w1 rest 38 Hr1) as (w2 & -> & Hb2 & Hr2).
  change (Z.to_nat 38) with 38%nat in *. cbn [w with_w].
  assert (Hbody : http.body w2 = http.body (w c) ++ magic ++ firstn 38 rest).
  { rewrite Hb2, Hb1, <- app_assoc. reflexivity. }
  destruct (_ <? 38) eqn:Eshort.
  { cbn [w Printf with_w]. apply Z.ltb_lt in Eshort. rewrite length_firstn in Eshort.
    rewrite Hbody, firstn_all2 by lia. reflexivity. }
  destruct (Copy_unlimited w2 (skipn 38 rest) Hr2) as (w3 & -> & Hb3 & Hr3).
  cbn [w with_w]. rewrite Hb3, Hbody, <- !app_assoc, firstn_skipn. reflexivity.
Qed.

Lemma Copying_stream_status (rest : io.Reader) (c : Conn) :
  status (w (Copying.stream (magic ++ rest) c)) =
  match status (w c) with
  | Some s => Some s
  | None => Some 200
  end.
Proof.
  unfold Copying.stream. rewrite ReadFull_magic.
  change (negb (bytes_Equal magic magic)) with false. cbv iota.
  cbn [w with_w].
  set (w0 := http.Header_Add "Content-Type" "audio/flac" (w c)).
  assert (H1 : exists x, http.wrote (fst (http.Write magic w0)) = Some x /\
                         Some (fst x) = match status (w c) with
                                        | Some s => Some s
                                        | None => Some 200
                                        end).
  { unfold status. destruct (http.wrote (w c)) as [x|] eqn:E.
    - exists x. split; [apply Write_keeps; exact E | reflexivity].
    - eexists. split; [apply Write_sets_status; exact E | reflexivity]. }
  destruct H1 as (x & H1 & <-).
  pose proof (CopyN_keeps _ rest 38 x H1) as H2.
  destruct (io.CopyN _ rest 38) as [[w2 rd2] e2]. cbn [fst] in H2.
  destruct e2; [unfold status; cbn [w Printf with_w]; rewrite H2; reflexivity|].
  pose proof (Copy_keeps w2 rd2 x H2) as H3.
  cbn [w with_w].
  destruct (io.Copy w2 rd2) as [[w3 rd3] e3]. cbn [fst] in H3.
  destruct e3; unfold status; cbn [w Printf with_w]; rewrite H3; reflexivity.
Qed.

(** X10: the revision before the block walk serves every object that
    starts with the signature whole, whatever follows the signature (even
    fewer than the 38 bytes of STREAMINFO).  It has the same missing
    [return] after a failed fetch: when the object store answers with a
    status other than 200, the object follows the error line, under
    status 500. *)
Theorem copied_object_is_whole (env : Env) (r : http.Request) (id : string)
    (data : TrackJSON) (urls : list string) (code : Z) (rest : list byte) :
  http.Method r = "GET"%string ->
  FindStringSubmatch (http.Path r) = [http.Path r; id] ->
  loadTrackInfo env id = (inl data, urls) ->
  Get env (mossTrackURL env data) =
    http.Received {| http.StatusCode := code; http.Body := magic ++ rest |} ->
  let c := Copying.trackHandler env (http.fresh None) r in
  status (w c) = Some (if code =? 200 then 200 else 500) /\
  http.body (w c) =
    (if code =? 200 then [] else error_line "Internal Server Error") ++ magic ++ rest.
Proof.
  intros Hm Hp Hl Hg c. subst c. unfold Copying.trackHandler.
  rewrite Hm, Hp.
  cbn [String.eqb Ascii.eqb Bool.eqb negb List.length Nat.ltb Nat.leb nth].
  rewrite Hl, Hg. cbn [http.StatusCode http.Body].
  destruct (code =? 200); cbn [negb].
  - split; [rewrite Copying_stream_status; reflexivity|].
    rewrite Copying_stream_body by reflexivity. reflexivity.
  - split; [rewrite Copying_stream_status; reflexivity|].
    rewrite Copying_stream_body by reflexivity. reflexivity.
Qed.

Lemma copied_object_is_whole_witness :
  let c := Copying.trackHandler (env0 found (ok ragged)) (http.fresh None) req0 in
  status (w c) = Some 200 /\ http.body (w c) = [] ++ ragged.
Proof.
  apply (copied_object_is_whole (env0 found (ok ragged)) req0 uuid0 track0
           ["http://impala/api/v1/login"; "http://impala/api/v1/tracks/" ++ uuid0]%string
           200 (streaminfo0 ++ [x00; x00; x00; x01; x07; xaa; xbb])); reflexivity.
Defined.

(** ** The revision of [main.go]: every way out *)

(** X11: whatever the request, the catalog, the object store and the
    machine do, no temporary file is left when the handler returns: each
    [return] after [ioutil.TempFile] succeeded runs the deferred
    [os.Remove]. *)
Theorem temporary_file_is_always_removed (env : Env) (host : Tagging.Host)
    (w0 : http.ResponseWriter) (r : http.Request) :
  Tagging.tmpf (Tagging.trackHandler env host w0 r) = None.
Proof.
  unfold Tagging.trackHandler.
  destruct (negb (String.eqb (http.Method r) "GET")); [reflexivity|].
  destruct (List.length (FindStringSubmatch (http.Path r)) <? 2)%nat; [reflexivity|].
  destruct (loadTrackInfo env _) as [[track|e] urls]; [|destruct e; reflexivity].
  destruct (Get env (mossTrackURL env track)) as [|resp|resp]; try reflexivity.
  destruct (negb (http.StatusCode resp =? 200)); [reflexivity|].
  destruct (negb (Tagging.TempFile_ok host)); [reflexivity|].
  destruct (io.CopyToFile _ _) as [content err].
  destruct err; [reflexivity|].
  destruct (negb (Tagging.Close_ok host)); [reflexivity|].
  destruct (Tagging.Run host _ _ content) as [content'|]; [|reflexivity].
  destruct (negb (Tagging.Open_ok host)); reflexivity.
Qed.

Lemma send_fresh (code : Z) (p : list byte) :
  status (http.send code p (http.fresh None)) = Some code /\
  http.body (http.send code p (http.fresh None)) = p.
Proof. destruct p; split; reflexivity. Qed.

(** What [http.ServeContent] answers with. *)
Lemma ServeContent_status (r : http.Request)
    (check : list (string * string) -> nat -> http.Served) (content : list byte) :
  let w1 := http.ServeContent (http.fresh None) r check content in
  status w1 = Some 200 \/ status w1 = Some 206 \/ status w1 = Some 304 \/
  status w1 = Some 412 \/ status w1 = Some 416.
Proof.
  intros w1. subst w1. unfold http.ServeContent.
  destruct (if http.conditional r then _ else _) as [| | |reason|start n|parts closing].
  - left. apply send_fresh.
  - right; right; left. reflexivity.
  - right; right; right; left. reflexivity.
  - right; right; right; right. apply Error_sets_status. reflexivity.
  - right; left. apply send_fresh.
  - right; left. apply send_fresh.
Qed.

(** A request without [Range] and precondition headers gets the whole
    content. *)
Lemma ServeContent_plain (r : http.Request)
    (check : list (string * string) -> nat -> http.Served) (content : list byte) :
  http.conditional r = false ->
  status (http.ServeContent (http.fresh None) r check content) = Some 200 /\
  http.body (http.ServeContent (http.fresh None) r check content) = content.
Proof.
  intros H. unfold http.ServeContent. rewrite H. apply send_fresh.
Qed.

(** X12: the handler of [main.go] has four ways out.  Three are its own
    error replies: status 405, 404 or 500 with one line of text as the
    body, and nothing of the object.  The fourth is the reply of
    [http.ServeContent] on the file as [metaflac] left it, and it is
    reached only after every step succeeded (GET, well-formed path, track
    found, object fetched with status 200, temporary file created, written
    in full and closed, [metaflac] run, file reopened).  That reply has
    status 200, 206, 304, 412 or 416; for a request without [Range] and
    precondition headers it has status 200 and its body is the whole
    file. *)
Theorem tagging_ways_out (env : Env) (host : Tagging.Host) (r : http.Request) :
  let c := Tagging.conn (Tagging.trackHandler env host (http.fresh None) r) in
  (status (w c) = Some 405 /\ http.body (w c) = error_line "Method Not Allowed") \/
  (status (w c) = Some 404 /\ http.body (w c) = error_line "404 page not found") \/
  (status (w c) = Some 500 /\ http.body (w c) = error_line "Internal Server Error") \/
  (exists id track urls content content',
     http.Method r = "GET"%string /\
     FindStringSubmatch (http.Path r) = [http.Path r; id] /\
     loadTrackInfo env id = (inl track, urls) /\
     Get env (mossTrackURL env track) = ok content /\
     Tagging.TempFile_ok host = true /\
     io.CopyToFile (Tagging.disk_room host) content = (content, false) /\
     Tagging.Close_ok host = true /\
     Tagging.Run host ("metaflac"%string :: Tagging.metaflac_args (Tagging.tmp_name host))
       (Tagging.metaflac_stdin track) content = Some content' /\
     Tagging.Open_ok host = true /\
     w c = http.ServeContent (http.fresh None) r (Tagging.Preconditions host) content' /\
     (status (w c) = Some 200 \/ status (w c) = Some 206 \/ status (w c) = Some 304 \/
      status (w c) = Some 412 \/ status (w c) = Some 416) /\
     (http.conditional r = false ->
      status (w c) = Some 200 /\ http.body (w c) = content')).
Proof.
  intros c. subst c. unfold Tagging.trackHandler.
  destruct (String.eqb_spec (http.Method r) "GET") as [Hm|Hm]; cbn [negb];
    [|left; split; reflexivity].
  destruct (FindStringSubmatch_shape (http.Path r)) as [Hp|Hp]; rewrite Hp;
    cbn [List.length Nat.ltb Nat.leb nth];
    [right; left; split; reflexivity|].
  set (id := substring 7 36 (http.Path r)) in *.
  destruct (loadTrackInfo env id) as [[track|e] urls] eqn:Hl.
  2:{ destruct e; [right; left | right; right; left | right; right; left];
        split; reflexivity. }
  destruct (Get env (mossTrackURL env track)) as [|resp|resp] eqn:Hg;
    try (right; right; left; split; reflexivity).
  destruct (Z.eqb_spec (http.StatusCode resp) 200) as [E200|N200]; cbn [negb];
    [|right; right; left; split; reflexivity].
  destruct (Tagging.TempFile_ok host) eqn:Ht; cbn [negb];
    [|right; right; left; split; reflexivity].
  destruct (io.CopyToFile _ _) as [content err] eqn:Hcopy.
  destruct err; [right; right; left; split; reflexivity|].
  destruct (Tagging.Close_ok host) eqn:Hc; cbn [negb];
    [|right; right; left; split; reflexivity].
  destruct (Tagging.Run host _ _ content) as [content'|] eqn:Hrun;
    [|right; right; left; split; reflexivity].
  destruct (Tagging.Open_ok host) eqn:Ho; cbn [negb];
    [|right; right; left; split; reflexivity].
  right; right; right.
  cbn [Tagging.conn Tagging.remove Tagging.reply w with_w called start].
  assert (Hcontent : content = http.Body resp).
  { unfold io.CopyToFile in Hcopy.
    destruct (Tagging.disk_room host); [destruct (_ <=? _)%nat|];
      congruence. }
  destruct resp as [code b]. cbn [http.StatusCode http.Body] in *. subst code content.
  exists id, track, urls, b, content'.
  do 10 (split; [first [assumption | reflexivity]|]).
  split; [apply ServeContent_status | apply ServeContent_plain].
Qed.

Lemma tagging_ways_out_witness :
  let c := Tagging.conn (Tagging.trackHandler (env0 found (ok flac0)) host0
                           (http.fresh None) req0) in
  status (w c) = Some 200 /\ http.body (w c) = flac0.
Proof.
  destruct (tagging_ways_out (env0 found (ok flac0)) host0 req0)
    as [[H _]|[[H _]|[[H _]|H]]]; try (vm_compute in H; discriminate H).
  destruct H as (id & track & urls & content & content' & _ & _ & _ & Hg & _ & _ & _
                 & Hrun & _ & _ & _ & Hplain).
  cbn [host0 Tagging.Run] in Hrun. injection Hrun as <-.
  assert (E : content = flac0).
  { cbn [env0 Get] in Hg. unfold ok in Hg. injection Hg as <-. reflexivity. }
  destruct (Hplain eq_refl) as [Hs Hb].
  cbv zeta. split; [exact Hs | rewrite Hb; exact E].
Defined.

(** X13: the handler of [main.go] asks upstream in one order only.  For a
    request that is not a GET for a well-formed path it asks nothing.
    Otherwise it asks what [loadTrackInfo] asks and, only if that returned
    a track, it goes on to ask the object store for that track, once. *)
Theorem upstream_is_asked_in_order (env : Env) (host : Tagging.Host)
    (w0 : http.ResponseWriter) (r : http.Request) :
  let c := Tagging.conn (Tagging.trackHandler env host w0 r) in
  ((http.Method r <> "GET"%string \/ FindStringSubmatch (http.Path r) = []) /\
   calls c = []) \/
  exists id,
    http.Method r = "GET"%string /\
    FindStringSubmatch (http.Path r) = [http.Path r; id] /\
    ((exists e, fst (loadTrackInfo env id) = inr e) /\
     calls c = snd (loadTrackInfo env id) \/
     exists track,
       fst (loadTrackInfo env id) = inl track /\
       calls c = snd (loadTrackInfo env id) ++ [mossTrackURL env track]).
Proof.
  intros c. subst c. unfold Tagging.trackHandler.
  destruct (String.eqb_spec (http.Method r) "GET") as [Hm|Hm]; cbn [negb];
    [|left; split; [left; exact Hm | reflexivity]].
  destruct (FindStringSubmatch_shape (http.Path r)) as [Hp|Hp]; rewrite Hp;
    cbn [List.length Nat.ltb Nat.leb nth];
    [left; split; [right; reflexivity | reflexivity]|].
  set (id := substring 7 36 (http.Path r)) in *.
  right. exists id. split; [exact Hm|]. split; [reflexivity|].
  destruct (loadTrackInfo env id) as [[track|e] urls] eqn:Hl; cbn [fst snd].
  2:{ left. split; [exists e; reflexivity|]. destruct e; reflexivity. }
  right. exists track. split; [reflexivity|].
  destruct (Get env (mossTrackURL env track)) as [|resp|resp]; try reflexivity.
  destruct (negb (http.StatusCode resp =? 200)); [reflexivity|].
  destruct (negb (Tagging.TempFile_ok host)); [reflexivity|].
  destruct (io.CopyToFile _ _) as [content err].
  destruct err; [reflexivity|].
  destruct (negb (Tagging.Close_ok host)); [reflexivity|].
  destruct (Tagging.Run host _ _ content) as [content'|]; [|reflexivity].
  destruct (negb (Tagging.Open_ok host)); reflexivity.
Qed.

(** ** The route *)

Lemma string_length_app (a b : string) :
  String.length (a ++ b) = (String.length a + String.length b)%nat.
Proof. induction a as [|x a IH]; simpl; [reflexivity | rewrite IH; reflexivity]. Qed.

Lemma substring_prefix (b c : string) :
  substring 0 (String.length b) (b ++ c) = b.
Proof.
  induction b as [|x b IH]; simpl; [destruct c; reflexivity|].
  rewrite IH. reflexivity.
Qed.

Lemma substring_app (a b c : string) :
  substring (String.length a) (String.length b) (a ++ b ++ c) = b.
Proof. induction a as [|x a IH]; simpl; [apply substring_prefix | exact IH]. Qed.

Lemma literal_sound (p : string) : forall s s',
  literal p s = Some s' -> s = (p ++ s')%string.
Proof.
  induction p as [|a p IH]; intros s s' H; simpl in H;
    [injection H as <-; reflexivity|].
  destruct s as [|b s]; [discriminate|].
  destruct (Ascii.eqb_spec a b) as [->|]; [|discriminate].
  simpl. f_equal. apply IH, H.
Qed.

Lemma hexrun_sound (n : nat) : forall s s',
  hexrun n s = Some s' -> exists h, hex n h /\ s = (h ++ s')%string.
Proof.
  induction n as [|n IH]; intros s s' H; simpl in H.
  - exists EmptyString. injection H as <-. repeat split.
  - destruct s as [|c s]; [discriminate|].
    destruct (hexdigit c) eqn:Hc; [|discriminate].
    destruct (IH _ _ H) as (h & [Hlen Hall] & ->).
    exists (String c h). repeat split; simpl; [congruence|].
    rewrite Hc, Hall. reflexivity.
Qed.

Lemma hexrun_complete (n : nat) : forall h s,
  hex n h -> hexrun n (h ++ s) = Some s.
Proof.
  induction n as [|n IH]; intros h s [Hlen Hall].
  - destruct h; [reflexivity | discriminate].
  - destruct h as [|c h]; [discriminate|].
    simpl in *. apply andb_prop in Hall as [Hc Hall]. rewrite Hc.
    apply IH. split; [congruence | exact Hall].
Qed.

Lemma rune_width_bounds (c : ascii) (s : string) :
  (1 <= rune_width (String c s) <= 4)%nat /\
  (rune_width (String c s) <= String.length (String c s))%nat.
Proof.
  unfold rune_width.
  repeat match goal with
         | |- context [if ?b then _ else _] => destruct b
         | |- context [match ?x with EmptyString => _ | String _ _ => _ end] =>
             destruct x
         end; simpl; lia.
Qed.

Lemma drop_split (n : nat) : forall s,
  (n <= String.length s)%nat ->
  exists sep, s = (sep ++ drop n s)%string /\ String.length sep = n.
Proof.
  induction n as [|n IH]; intros s H.
  - exists EmptyString. split; [destruct s|]; reflexivity.
  - destruct s as [|c s]; simpl in H; [lia|].
    destruct (IH s) as (sep & E & L); [lia|].
    exists (String c sep). simpl. split; [f_equal; exact E | congruence].
Qed.

Lemma anychar_sound (s s' : string) :
  anychar s = Some s' ->
  exists sep, s = (sep ++ s')%string /\ (1 <= String.length sep <= 4)%nat.
Proof.
  unfold anychar. destruct s as [|c s]; [discriminate|].
  destruct (Ascii.eqb c "010"); [discriminate|].
  intros [= <-].
  destruct (rune_width_bounds c s) as [Hb Hl].
  destruct (drop_split _ _ Hl) as (sep & E & L).
  exists sep. split; [exact E | lia].
Qed.

Lemma anychar_single (c : ascii) :
  c <> "010"%char -> anychar (String c "flac") = Some "flac"%string.
Proof.
  intros H.
  destruct c as [[] [] [] [] [] [] [] []];
    solve [reflexivity | exfalso; apply H; reflexivity].
Qed.

Lemma uuid_of_length (a b c d e : string) :
  hex 8 a -> hex 4 b -> hex 4 c -> hex 4 d -> hex 12 e ->
  String.length (uuid_of a b c d e) = 36%nat.
Proof.
  intros [Ha _] [Hb _] [Hc _] [Hd _] [He _]. unfold uuid_of.
  rewrite !string_length_app. simpl. lia.
Qed.

(** X14: a path that the route takes is [/track/], then a track id of the
    shape 8-4-4-4-12 in the digits [0-9a-f], then one character (of one to
    four bytes), then [flac], and nothing else; the id handed to
    [loadTrackInfo] is that very part of the path. *)
Theorem route_match_shape (path : string) :
  FindStringSubmatch path <> [] ->
  exists a b c d e sep,
    hex 8 a /\ hex 4 b /\ hex 4 c /\ hex 4 d /\ hex 12 e /\
    (1 <= String.length sep <= 4)%nat /\
    path = ("/track/" ++ uuid_of a b c d e ++ sep ++ "flac")%string /\
    FindStringSubmatch path = [path; uuid_of a b c d e].
Proof.
  unfold FindStringSubmatch.
  destruct (literal "/track/" path) as [s1|] eqn:H1; cbn [andThen]; [|congruence].
  destruct (hexrun 8 s1) as [s2|] eqn:H2; cbn [andThen]; [|congruence].
  destruct (literal "-" s2) as [s3|] eqn:H3; cbn [andThen]; [|congruence].
  destruct (hexrun 4 s3) as [s4|] eqn:H4; cbn [andThen]; [|congruence].
  destruct (literal "-" s4) as [s5|] eqn:H5; cbn [andThen]; [|congruence].
  destruct (hexrun 4 s5) as [s6|] eqn:H6; cbn [andThen]; [|congruence].
  destruct (literal "-" s6) as [s7|] eqn:H7; cbn [andThen]; [|congruence].
  destruct (hexrun 4 s7) as [s8|] eqn:H8; cbn [andThen]; [|congruence].
  destruct (literal "-" s8) as [s9|] eqn:H9; cbn [andThen]; [|congruence].
  destruct (hexrun 12 s9) as [s10|] eqn:H10; cbn [andThen]; [|congruence].
  destruct (anychar s10) as [s11|] eqn:H11; cbn [andThen]; [|congruence].
  destruct (literal "flac" s11) as [s12|] eqn:H12; cbn [andThen]; [|congruence].
  destruct s12; [|congruence].
  intros _.
  apply literal_sound in H1, H3, H5, H7, H9, H12.
  apply hexrun_sound in H2 as (a & Ha & E2), H4 as (b & Hb & E4),
    H6 as (c & Hc & E6), H8 as (d & Hd & E8), H10 as (e & He & E10).
  apply anychar_sound in H11 as (sep & E11 & Hsep).
  exists a, b, c, d, e, sep.
  assert (Hpath : path = ("/track/" ++ uuid_of a b c d e ++ sep ++ "flac")%string).
  { unfold uuid_of. rewrite !string_app_assoc.
    rewrite H1, E2, H3, E4, H5, E6, H7, E8, H9, E10, E11, H12. reflexivity. }
  do 5 (split; [assumption|]).
  split; [exact Hsep|]. split; [exact Hpath|].
  rewrite Hpath at 2.
  pose proof (uuid_of_length a b c d e Ha Hb Hc Hd He) as L.
  rewrite <- L. change 7%nat with (String.length "/track/").
  rewrite substring_app. reflexivity.
Qed.

Lemma route_match_shape_witness :
  FindStringSubmatch (http.Path req0) <> [] /\
  exists a b c d e sep,
    hex 8 a /\ hex 4 b /\ hex 4 c /\ hex 4 d /\ hex 12 e /\
    (1 <= String.length sep <= 4)%nat /\
    http.Path req0 = ("/track/" ++ uuid_of a b c d e ++ sep ++ "flac")%string /\
    FindStringSubmatch (http.Path req0) = [http.Path req0; uuid_of a b c d e].
Proof.
  assert (H : FindStringSubmatch (http.Path req0) <> []) by (vm_compute; discriminate).
  split; [exact H | exact (route_match_shape (http.Path req0) H)].
Defined.

(** X15: every path of that shape is taken, whatever single byte other than
    a newline stands where the pattern has its unescaped dot. *)
Theorem route_takes_every_id (a b c d e : string) (dot : ascii) :
  hex 8 a -> hex 4 b -> hex 4 c -> hex 4 d -> hex 12 e ->
  dot <> "010"%char ->
  let path := ("/track/" ++ uuid_of a b c d e ++ String dot "flac")%string in
  FindStringSubmatch path = [path; uuid_of a b c d e].
Proof.
  intros Ha Hb Hc Hd He Hdot path.
  pose proof (uuid_of_length a b c d e Ha Hb Hc Hd He) as L.
  assert (Hsub : substring 7 36 path = uuid_of a b c d e).
  { unfold path. rewrite <- L. change 7%nat with (String.length "/track/").
    apply substring_app. }
  unfold FindStringSubmatch. rewrite Hsub.
  assert (E : path = ("/track/" ++ a ++ "-" ++ b ++ "-" ++ c ++ "-" ++ d ++ "-" ++ e
                        ++ String dot "flac")%string).
  { unfold path, uuid_of. rewrite !string_app_assoc. reflexivity. }
  rewrite E at 1.
  assert (Hlit : forall p s, literal p (p ++ s) = Some s).
  { induction p as [|x p IH]; intros s; simpl; [reflexivity|].
    rewrite Ascii.eqb_refl. apply IH. }
  rewrite Hlit; cbn [andThen].
  rewrite (hexrun_complete _ _ _ Ha); cbn [andThen].
  rewrite Hlit; cbn [andThen].
  rewrite (hexrun_complete _ _ _ Hb); cbn [andThen].
  rewrite Hlit; cbn [andThen].
  rewrite (hexrun_complete _ _ _ Hc); cbn [andThen].
  rewrite Hlit; cbn [andThen].
  rewrite (hexrun_complete _ _ _ Hd); cbn [andThen].
  rewrite Hlit; cbn [andThen].
  rewrite (hexrun_complete _ _ _ He); cbn [andThen].
  rewrite (anychar_single _ Hdot); cbn [andThen].
  reflexivity.
Qed.

Lemma route_takes_every_id_witness :
  FindStringSubmatch "/track/01234567-89ab-cdef-0123-456789abcdef_flac" =
  ["/track/01234567-89ab-cdef-0123-456789abcdef_flac"; uuid0]%string.
Proof.
  apply (route_takes_every_id "01234567" "89ab" "cdef" "0123" "456789abcdef" "_");
    try (split; reflexivity).
  discriminate.
Defined.

(** ** The streaming revision: a client that stops reading *)

(** A write sends a prefix of what it was given, all of it when it reports
    no error; after an error the client takes nothing more. *)
Lemma Write_prefix (p : list byte) (w0 : http.ResponseWriter) :
  exists k,
    http.body (fst (http.Write p w0)) = http.body w0 ++ firstn k p /\
    (snd (http.Write p w0) = false ->
     http.body (fst (http.Write p w0)) = http.body w0 ++ p) /\
    (snd (http.Write p w0) = true -> http.room (fst (http.Write p w0)) = Some 0%nat).
Proof.
  unfold http.Write.
  assert (Hb : http.body (http.WriteHeader 200 w0) = http.body w0)
    by (unfold http.WriteHeader; destruct (http.wrote w0); reflexivity).
  destruct (http.room (http.WriteHeader 200 w0)) as [n|].
  - destruct (_ <=? _)%nat; cbn [fst snd http.body http.room]; rewrite Hb.
    + exists (List.length p). rewrite firstn_all. repeat split; discriminate.
    + exists n. repeat split; discriminate.
  - cbn [fst snd http.body http.room]; rewrite Hb.
    exists (List.length p). rewrite firstn_all. repeat split; discriminate.
Qed.

Lemma Write_no_room (p : list byte) (w0 : http.ResponseWriter) :
  http.room w0 = Some 0%nat ->
  http.body (fst (http.Write p w0)) = http.body w0 /\
  (p <> [] -> snd (http.Write p w0) = true).
Proof.
  intros Hr. unfold http.Write.
  assert (Hb : http.body (http.WriteHeader 200 w0) = http.body w0)
    by (unfold http.WriteHeader; destruct (http.wrote w0); reflexivity).
  assert (Hr' : http.room (http.WriteHeader 200 w0) = Some 0%nat)
    by (unfold http.WriteHeader; destruct (http.wrote w0); exact Hr).
  rewrite Hr'. destruct p as [|b p]; cbn [List.length Nat.leb fst snd http.body firstn];
    rewrite Hb, app_nil_r; split; congruence.
Qed.

Lemma Copy_prefix (w0 : http.ResponseWriter) (src : io.Reader) :
  exists k,
    http.body (fst (fst (io.Copy w0 src))) = http.body w0 ++ firstn k src /\
    (snd (io.Copy w0 src) = false ->
     http.body (fst (fst (io.Copy w0 src))) = http.body w0 ++ src).
Proof.
  unfold io.Copy. destruct src as [|b src].
  - exists 0%nat. cbn [fst snd firstn]. rewrite app_nil_r. split; reflexivity.
  - destruct (Write_prefix (b :: src) w0) as (k & Hk & Hok & _).
    destruct (http.Write (b :: src) w0) as [w1 err]. cbn [fst snd] in *.
    exists k. split; assumption.
Qed.

Lemma CopyN_prefix (w0 : http.ResponseWriter) (src : io.Reader) (n : Z) :
  exists k,
    http.body (fst (fst (io.CopyN w0 src n))) = http.body w0 ++ firstn k src /\
    snd (fst (io.CopyN w0 src n)) = skipn (Z.to_nat n) src /\
    (snd (io.CopyN w0 src n) = false ->
     http.body (fst (fst (io.CopyN w0 src n))) = http.body w0 ++ firstn (Z.to_nat n) src).
Proof.
  unfold io.CopyN.
  destruct (Copy_prefix w0 (firstn (Z.to_nat n) src)) as (k & Hk & Hok).
  destruct (io.Copy w0 (firstn (Z.to_nat n) src)) as [[w1 rd1] err].
  cbn [fst snd] in *.
  exists (Nat.min k (Z.to_nat n)). rewrite <- firstn_firstn.
  repeat split; [exact Hk|].
  intros H. apply orb_false_elim in H as [H _]. exact (Hok H).
Qed.

Lemma CopyN_no_room (w0 : http.ResponseWriter) (src : io.Reader) (n : Z) :
  http.room w0 = Some 0%nat -> 0 < n ->
  http.body (fst (fst (io.CopyN w0 src n))) = http.body w0 /\
  snd (io.CopyN w0 src n) = true.
Proof.
  intros Hr Hn. unfold io.CopyN, io.Copy.
  destruct (firstn (Z.to_nat n) src) as [|b p] eqn:Hp.
  - cbn [fst snd List.length orb]. split; [reflexivity|].
    apply Z.ltb_lt. simpl. lia.
  - destruct (Write_no_room (b :: p) w0 Hr) as [Hb Herr].
    destruct (http.Write (b :: p) w0) as [w1 err]. cbn [fst snd] in *.
    split; [exact Hb|]. rewrite Herr by discriminate. reflexivity.
Qed.

(** The loop sends what it reads, in the order it reads it, whatever the
    client takes. *)
Lemma walk_prefix (fuel : nat) : forall rd c l,
  Streaming.walk fuel rd c = Some l ->
  exists pre rest,
    rd = pre ++ rest /\
    http.body (w (conn_of l)) = http.body (w c) ++ pre /\
    match l with
    | Streaming.Broke _ rd' => rd' = rest
    | Streaming.Returned _ => True
    end.
Proof.
  induction fuel as [|fuel IH]; intros rd c l Hwalk; [discriminate|].
  cbn [Streaming.walk] in Hwalk.
  destruct (parseBlockHeader rd) as [[h rd1]|] eqn:Hp.
  2:{ injection Hwalk as <-. exists [], rd. cbn [conn_of w Printf app].
      rewrite app_nil_r. repeat split. }
  apply parseBlockHeader_some in Hp. destruct Hp as (b0 & b1 & b2 & b3 & -> & ->).
  rewrite Marshal_header_of_bytes in Hwalk.
  cbn [w Printf] in Hwalk.
  destruct (Write_prefix [b0; b1; b2; b3] (w c)) as (k & Hk & Hok & _).
  destruct (http.Write [b0; b1; b2; b3] (w c)) as [w1 err]. cbn [fst snd] in *.
  cbn [w with_w Printf] in Hwalk.
  destruct err.
  { injection Hwalk as <-. cbn [conn_of w Printf with_w].
    exists (firstn k [b0; b1; b2; b3]), (skipn k [b0; b1; b2; b3] ++ rd1).
    repeat split; [|exact Hk].
    rewrite app_assoc, firstn_skipn. reflexivity. }
  specialize (Hok eq_refl).
  set (n := Length (header_of_bytes b0 b1 b2 b3)) in *.
  destruct (CopyN_prefix w1 rd1 n) as (j & Hj & Hrd & Hall).
  destruct (io.CopyN w1 rd1 n) as [[w2 rd2] err]. cbn [fst snd] in *.
  cbn [w with_w Printf] in Hwalk.
  destruct err.
  { injection Hwalk as <-. cbn [conn_of w Printf with_w].
    exists ([b0; b1; b2; b3] ++ firstn j rd1), (skipn j rd1).
    repeat split.
    - rewrite <- app_assoc, firstn_skipn. reflexivity.
    - rewrite Hj, Hok, <- app_assoc. reflexivity. }
  specialize (Hall eq_refl).
  assert (Hbody : http.body w2 =
                  http.body (w c) ++ [b0; b1; b2; b3] ++ firstn (Z.to_nat n) rd1).
  { rewrite Hall, Hok, <- app_assoc. reflexivity. }
  assert (Hsplit : b0 :: b1 :: b2 :: b3 :: rd1 =
            ([b0; b1; b2; b3] ++ firstn (Z.to_nat n) rd1) ++ skipn (Z.to_nat n) rd1).
  { rewrite <- app_assoc, firstn_skipn. reflexivity. }
  destruct (LastBlock _).
  { injection Hwalk as <-. subst rd2. do 2 eexists. cbn [conn_of w with_w].
    repeat split; [exact Hsplit | exact Hbody]. }
  apply IH in Hwalk. destruct Hwalk as (pre & rest & Hrd2 & Hb & Hl).
  exists (([b0; b1; b2; b3] ++ firstn (Z.to_nat n) rd1) ++ pre), rest.
  cbn [w with_w Printf] in Hb.
  repeat split.
  - rewrite Hsplit, <- Hrd, Hrd2, <- !app_assoc. reflexivity.
  - rewrite Hb, Hbody, <- !app_assoc. reflexivity.
  - exact Hl.
Qed.

Lemma stream_prefix (rest : io.Reader) (c : Conn) :
  exists pre post,
    magic ++ rest = pre ++ post /\
    http.body (w (Streaming.stream (magic ++ rest) c)) = http.body (w c) ++ pre.
Proof.
  unfold Streaming.stream.
  rewrite ReadFull_magic.
  change (negb (bytes_Equal magic magic)) with false. cbv iota.
  set (c1 := with_w c (http.Header_Add "Content-Type" "audio/flac" (w c))).
  assert (Hb0 : http.body (w c1) = http.body (w c)) by reflexivity.
  destruct (Write_prefix magic (w c1)) as (k & Hk & Hok & Hfail).
  destruct (http.Write magic (w c1)) as [w1 err]. cbn [fst snd] in *.
  rewrite Hb0 in Hk, Hok.
  destruct err.
  { specialize (Hfail eq_refl).
    destruct (CopyN_no_room w1 rest 38 Hfail eq_refl) as [Hb Herr].
    cbv zeta. cbn [w with_w Printf].
    destruct (io.CopyN w1 rest 38) as [[w2 rd2] err].
    cbn [fst snd] in *. subst err.
    cbn [w with_w Printf].
    exists (firstn k magic), (skipn k magic ++ rest). split.
    - rewrite app_assoc, firstn_skipn. reflexivity.
    - rewrite Hb. exact Hk. }
  specialize (Hok eq_refl). cbn [w with_w].
  destruct (CopyN_prefix w1 rest 38) as (j & Hj & Hrd & Hall).
  destruct (io.CopyN w1 rest 38) as [[w2 rd2] err]. cbn [fst snd] in *.
  change (Z.to_nat 38) with 38%nat in *.
  destruct err.
  { cbn [w with_w Printf].
    exists (magic ++ firstn j rest), (skipn j rest). split.
    - rewrite <- app_assoc, firstn_skipn. reflexivity.
    - rewrite Hj, Hok, <- app_assoc. reflexivity. }
  specialize (Hall eq_refl).
  assert (Hbody : http.body w2 = http.body (w c) ++ magic ++ firstn 38 rest).
  { rewrite Hall, Hok, <- app_assoc. reflexivity. }
  set (c2 := with_w _ w2).
  destruct (walk_total (S (List.length rd2)) rd2 c2 (Nat.lt_succ_diag_r _))
    as (l & Hl).
  rewrite Hl.
  destruct (walk_prefix _ _ c2 _ Hl) as (pre & post & Hsplit & Hb & Hrest).
  unfold c2 in Hb. cbn [w with_w] in Hb.
  assert (Hobj : magic ++ rest = (magic ++ firstn 38 rest ++ pre) ++ post).
  { rewrite <- !app_assoc, <- Hsplit, Hrd, firstn_skipn. reflexivity. }
  destruct l as [c3|c3 rd3]; cbn [conn_of] in *.
  - exists (magic ++ firstn 38 rest ++ pre), post. split; [exact Hobj|].
    rewrite Hb, Hbody, <- !app_assoc. reflexivity.
  - subst rd3.
    destruct (Copy_prefix (w c3) post) as (i & Hi & _).
    destruct (io.Copy (w c3) post) as [[w4 rd4] err]. cbn [fst snd] in *.
    exists ((magic ++ firstn 38 rest ++ pre) ++ firstn i post), (skipn i post).
    split.
    + rewrite <- app_assoc, firstn_skipn. exact Hobj.
    + assert (E : http.body w4 =
                  http.body (w c) ++ (magic ++ firstn 38 rest ++ pre) ++ firstn i post).
      { rewrite Hi, Hb, Hbody, <- !app_assoc. reflexivity. }
      destruct err; cbn [w with_w Printf]; exact E.
Qed.

(** X16: whatever the client takes before it stops reading, what the
    streaming handler has sent of an object that starts with the signature
    is a prefix of that object: the loop changes, adds and reorders no
    byte, also when a write fails half-way (and also after the failed write
    of the signature, which the handler does not return from). *)
Theorem client_gets_a_prefix_of_the_object (env : Env) (r : http.Request)
    (room : option nat) (id : string) (data : TrackJSON) (urls : list string)
    (rest : list byte) :
  http.Method r = "GET"%string ->
  FindStringSubmatch (http.Path r) = [http.Path r; id] ->
  loadTrackInfo env id = (inl data, urls) ->
  Get env (mossTrackURL env data) = ok (magic ++ rest) ->
  exists unsent,
    magic ++ rest =
      http.body (w (Streaming.trackHandler env (http.fresh room) r)) ++ unsent.
Proof.
  intros Hm Hp Hl Hg.
  rewrite (trackHandler_streams _ _ _ _ _ _ _ Hm Hp Hl Hg).
  set (c := called _ _).
  destruct (stream_prefix rest c) as (pre & post & Hsplit & Hb).
  exists post. rewrite Hb, Hsplit. reflexivity.
Qed.

Lemma client_gets_a_prefix_of_the_object_witness :
  exists unsent,
    flac0 =
      http.body (w (Streaming.trackHandler (env0 found (ok flac0))
                      (http.fresh (Some 45%nat)) req0)) ++ unsent.
Proof.
  exact (client_gets_a_prefix_of_the_object (env0 found (ok flac0)) req0 (Some 45%nat)
           uuid0 track0 _ (streaminfo0 ++ padding_last ++ frames0)
           eq_refl eq_refl eq_refl eq_refl).
Defined.

(** ** The revision of [main.go]: what [metaflac] is given *)

Lemma lines_first (p q : string) :
  no_newline p = true ->
  metaflac.lines (p ++ String "010" q) = p :: metaflac.lines q.
Proof.
  induction p as [|c p IH]; intros H; [reflexivity|].
  cbn [no_newline] in H. apply andb_prop in H as [Hc Hp].
  cbn [append metaflac.lines].
  destruct (Ascii.eqb c "010"); [discriminate|].
  rewrite (IH Hp). reflexivity.
Qed.

Lemma remove_tag_app (name : string) (l1 l2 : list metaflac.Tag) :
  metaflac.remove_tag name (l1 ++ l2) =
  metaflac.remove_tag name l1 ++ metaflac.remove_tag name l2.
Proof. apply filter_app. Qed.

(** X17: when neither the artist nor the title of the track holds a line
    break, the [metaflac] command of the handler succeeds on every file and
    leaves exactly four new entries after the ones it kept: the artist and
    the title of the catalog, and the two fixed texts.  (A [=] in the artist
    or the title does no harm: a line is cut at its first [=].) *)
Theorem metaflac_writes_four_tags (track : TrackJSON) (name : string)
    (tags : list metaflac.Tag) :
  literal "--" name = None ->
  no_newline (Artist track) = true ->
  no_newline (Title track) = true ->
  metaflac.run (Tagging.metaflac_args name) (Tagging.metaflac_stdin track) tags =
  Some (metaflac.remove_tag "LABEL"
          (metaflac.remove_tag "ALBUM"
             (metaflac.remove_tag "TITLE" (metaflac.remove_tag "ARTIST" tags)))
        ++ [("ARTIST", Artist track); ("TITLE", Title track);
            ("ALBUM", "dmca test"); ("LABEL", "dmca test")]%string).
Proof.
  intros Hname Ha Ht.
  assert (Hfields : metaflac.fields (metaflac.lines (Tagging.metaflac_stdin track)) =
            Some [("ARTIST", Artist track); ("TITLE", Title track);
                  ("ALBUM", "dmca test"); ("LABEL", "dmca test")]%string).
  { assert (E : Tagging.metaflac_stdin track =
                (("ARTIST=" ++ Artist track) ++ String "010"
                   (("TITLE=" ++ Title track) ++ String "010"
                      ("ALBUM=dmca test" ++ String "010"
                         ("LABEL=dmca test" ++ String "010" EmptyString))))%string).
    { unfold Tagging.metaflac_stdin. rewrite !string_app_assoc. reflexivity. }
    rewrite E, lines_first by exact Ha.
    rewrite lines_first by exact Ht.
    reflexivity. }
  change (Tagging.metaflac_args name)
    with (["--remove-tag=ARTIST"; "--remove-tag=TITLE"; "--remove-tag=ALBUM";
           "--remove-tag=LABEL"; "--import-tags-from=-"]%string ++ [name]).
  rewrite run_app.
  remember (metaflac.run [name] (Tagging.metaflac_stdin track)) as file eqn:Hfile.
  cbn -[Tagging.metaflac_stdin metaflac.remove_tag metaflac.import_tags andThen].
  unfold metaflac.import_tags. rewrite Hfields.
  cbn [option_map andThen]. rewrite Hfile, run_file by assumption.
  reflexivity.
Qed.

Lemma metaflac_writes_four_tags_witness :
  metaflac.run (Tagging.metaflac_args "/tmp/dmca123") (Tagging.metaflac_stdin track0)
    old_tags =
  Some (metaflac.remove_tag "LABEL"
          (metaflac.remove_tag "ALBUM"
             (metaflac.remove_tag "TITLE" (metaflac.remove_tag "ARTIST" old_tags)))
        ++ [("ARTIST", Artist track0); ("TITLE", Title track0);
            ("ALBUM", "dmca test"); ("LABEL", "dmca test")]%string).
Proof.
  exact (metaflac_writes_four_tags track0 "/tmp/dmca123" old_tags
           eq_refl eq_refl eq_refl).
Defined.

(** ** The error types *)

Lemma string_app_inv_head (p a b : string) :
  (p ++ a)%string = (p ++ b)%string -> a = b.
Proof. induction p as [|c p IH]; simpl; intros H; [exact H | injection H as H; auto]. Qed.

(** X18: an error text belongs to one error: the texts of the two error
    types never coincide, and each spells out the track id in full, so the
    line in the log tells which lookup failed and how. *)
Theorem error_text_tells_the_error (e1 e2 : error) (text : string) :
  Error_text e1 = Some text -> Error_text e2 = Some text -> e1 = e2.
Proof.
  destruct e1 as [a|a|], e2 as [b|b|]; cbn [Error_text];
    intros [= <-] H; try discriminate H;
    apply (f_equal (fun o => match o with Some t => t | None => EmptyString end)) in H.
  - apply (string_app_inv_head "Track not found: ") in H. congruence.
  - apply (string_app_inv_head "Error fetching track information: ") in H. congruence.
Qed.

Lemma error_text_tells_the_error_witness :
  TrackFetchError uuid0 = TrackFetchError uuid0.
Proof.
  exact (error_text_tells_the_error (TrackFetchError uuid0) (TrackFetchError uuid0)
           _ eq_refl eq_refl).
Defined.

(** ** The revision of [main.go]: the log *)

Ltac logged_once :=
  split; [cbn; lia |
          split; [intros H; cbn in H; discriminate H |
                  intros H; exfalso; apply H; reflexivity]].

Ltac not_logged :=
  split; [cbn; lia | split; [intros _; discriminate | reflexivity]].

(** X19: the handler of [main.go] writes one line to the log for every
    reply with status 500, and nothing for any other reply (a ready file, a
    refused method, an unknown path or an unknown track). *)
Theorem every_failure_is_logged_once (env : Env) (host : Tagging.Host) (r : http.Request) :
  let c := Tagging.conn (Tagging.trackHandler env host (http.fresh None) r) in
  (List.length (log c) <= 1)%nat /\
  (log c = [] <-> status (w c) <> Some 500).
Proof.
  intros c. subst c. unfold Tagging.trackHandler.
  destruct (negb (String.eqb (http.Method r) "GET")); [not_logged|].
  destruct (List.length (FindStringSubmatch (http.Path r)) <? 2)%nat; [not_logged|].
  destruct (loadTrackInfo env _) as [[track|e] urls];
    [|destruct e; [not_logged | logged_once | logged_once]].
  destruct (Get env (mossTrackURL env track)) as [|resp|resp]; try logged_once.
  destruct (negb (http.StatusCode resp =? 200)); [logged_once|].
  destruct (negb (Tagging.TempFile_ok host)); [logged_once|].
  destruct (io.CopyToFile _ _) as [content err].
  destruct err; [logged_once|].
  destruct (negb (Tagging.Close_ok host)); [logged_once|].
  destruct (Tagging.Run host _ _ content) as [content'|]; [|logged_once].
  destruct (negb (Tagging.Open_ok host)); [logged_once|].
  cbn [Tagging.conn Tagging.remove Tagging.reply w with_w called start log].
  split; [cbn; lia|]. split; [intros _ | reflexivity].
  destruct (ServeContent_status r (Tagging.Preconditions host) content')
    as [H|[H|[H|[H|H]]]]; rewrite H; discriminate.
Qed.
